(** * A minimal HTTP/1.1 server: request parser, router and response builder

    Shallow embedding of the final revision of the server (the file with
    [getFilesResponse] and [getSaveFilesResponse]) and the properties of
    its parser, its routing and its wire format.

    Conventions of the embedding.
    - A [Buffer] is a list of octets, each an 8-bit number held in [N]; a
      number above 255 is nowhere produced and is decoded like any octet
      that cannot occur in UTF-8.
    - A JavaScript string is held as the list of its Unicode code points.
      Every string the server handles is either a literal of the program or
      comes out of [Buffer.toString()] / [decodeURIComponent], which never
      produce an unpaired surrogate, so the code-point view and the UTF-16
      view of [split], [===], [match] and [replace] (all used with ASCII
      patterns only) coincide.
    - [undefined] is [None]; an exception is the [Throw] case of
      [completion].
    - The [async] functions run to completion one after the other; the
      disk they act on is threaded explicitly. *)

From Stdlib Require Import Ascii String DecimalString.
From Stdlib Require Import List NArith ZArith Bool Lia Setoid.
Import ListNotations.

Local Open Scope N_scope.
Local Open Scope list_scope.

(** ** Values *)

Definition Buffer := list N.
Definition JSString := list N.

(** An ASCII literal of the program as a JavaScript string. *)
Definition str (s : string) : JSString :=
  map N_of_ascii (list_ascii_of_string s).

(** The same literal as the octets a client sends. *)
Definition bytes (s : string) : Buffer :=
  map N_of_ascii (list_ascii_of_string s).

Definition CR : N := 13.
Definition LF : N := 10.
Definition CRLF : JSString := [CR; LF].

Inductive JSError := TypeError | URIError.

Inductive completion (A : Type) : Type :=
| Normal (a : A)
| Throw (e : JSError).
Arguments Normal {A} a.
Arguments Throw {A} e.

Definition bind {A B} (c : completion A) (k : A -> completion B) : completion B :=
  match c with
  | Normal a => k a
  | Throw e => Throw e
  end.

Notation "x <- c ;; k" := (bind c (fun x => k))
  (at level 61, c at next level, right associativity).

(** [a === b] on strings. *)
Definition strict_eq (a b : JSString) : bool :=
  if list_eq_dec N.eq_dec a b then true else false.

(** [a === b] where [a] may be [undefined] and [b] is a string. *)
Definition strict_eq_opt (a : option JSString) (b : JSString) : bool :=
  match a with
  | Some s => strict_eq s b
  | None => false
  end.

(** ** String primitives *)

(** [starts_with p s]: [p] occurs in [s] at index 0. *)
Fixpoint starts_with (p s : JSString) : bool :=
  match p, s with
  | [], _ => true
  | _ :: _, [] => false
  | a :: p', b :: s' => (a =? b) && starts_with p' s'
  end.

(** [String.prototype.split(sep)] for a non-empty [sep] and no limit.
    [skip] counts the code points of a separator still to be passed over;
    [cur] is the piece being collected, in reverse. *)
Fixpoint split_go (sep : JSString) (skip : nat) (cur : JSString) (s : JSString)
  : list JSString :=
  match s with
  | [] => [rev cur]
  | c :: s' =>
      match skip with
      | S k => split_go sep k cur s'
      | O =>
          if starts_with sep s
          then rev cur :: split_go sep (Nat.pred (List.length sep)) [] s'
          else split_go sep O (c :: cur) s'
      end
  end.

Definition split (sep s : JSString) : list JSString := split_go sep O [] s.

(** [s.match(/^p/)] as a truth value, and [s.replace(/^p/, empty)], for a
    literal [p]. *)
Definition match_prefix (p s : JSString) : bool := starts_with p s.

Definition replace_prefix (p s : JSString) : JSString :=
  if starts_with p s then skipn (List.length p) s else s.

(** [array.join] with the empty separator. *)
Definition join_empty (parts : list JSString) : JSString := concat parts.

(** ** UTF-8, as Node applies it between strings and buffers *)

Definition REPLACEMENT : N := 0xFFFD.

Definition in_range (lo hi b : N) : bool := (lo <=? b) && (b <=? hi).

(** A code point that is not a surrogate. *)
Definition is_scalar (c : N) : bool :=
  (c <? 0xD800) || ((0xE000 <=? c) && (c <? 0x110000)).

(** The octets of one code point; an unpaired surrogate is written as
    U+FFFD, as [Buffer.from(string)] does. *)
Definition utf8_encode_cp (c : N) : list N :=
  if c <? 0x80 then [c]
  else if c <? 0x800 then [0xC0 + c / 64; 0x80 + c mod 64]
  else if is_scalar c then
    if c <? 0x10000
    then [0xE0 + c / 4096; 0x80 + (c / 64) mod 64; 0x80 + c mod 64]
    else [0xF0 + c / 262144; 0x80 + (c / 4096) mod 64;
          0x80 + (c / 64) mod 64; 0x80 + c mod 64]
  else [0xEF; 0xBF; 0xBD].

(** [Buffer.from(s, utf8)]: what [writeFile] and [socket.write] put on the
    disk or on the wire for a string. *)
Definition utf8_encode (s : JSString) : Buffer := flat_map utf8_encode_cp s.

(** [Buffer.byteLength(s)]. *)
Definition Buffer_byteLength (s : JSString) : N :=
  N.of_nat (List.length (utf8_encode s)).

(** [buffer.byteLength]. *)
Definition byteLength (b : Buffer) : N := N.of_nat (List.length b).

(** [buffer.toString()]: the UTF-8 decoder with replacement. A sequence
    that is cut short or continued by a wrong octet gives one U+FFFD and
    decoding resumes at the offending octet. *)
Fixpoint Buffer_toString (bs : Buffer) : JSString :=
  match bs with
  | [] => []
  | b0 :: r0 =>
      if b0 <? 0x80 then b0 :: Buffer_toString r0
      else if in_range 0xC2 0xDF b0 then
        match r0 with
        | [] => [REPLACEMENT]
        | b1 :: r1 =>
            if in_range 0x80 0xBF b1
            then ((b0 - 0xC0) * 64 + (b1 - 0x80)) :: Buffer_toString r1
            else REPLACEMENT :: Buffer_toString r0
        end
      else if in_range 0xE0 0xEF b0 then
        let lo := if b0 =? 0xE0 then 0xA0 else 0x80 in
        let hi := if b0 =? 0xED then 0x9F else 0xBF in
        match r0 with
        | [] => [REPLACEMENT]
        | b1 :: r1 =>
            if in_range lo hi b1 then
              match r1 with
              | [] => [REPLACEMENT]
              | b2 :: r2 =>
                  if in_range 0x80 0xBF b2
                  then ((b0 - 0xE0) * 4096 + (b1 - 0x80) * 64 + (b2 - 0x80))
                         :: Buffer_toString r2
                  else REPLACEMENT :: Buffer_toString r1
              end
            else REPLACEMENT :: Buffer_toString r0
        end
      else if in_range 0xF0 0xF4 b0 then
        let lo := if b0 =? 0xF0 then 0x90 else 0x80 in
        let hi := if b0 =? 0xF4 then 0x8F else 0xBF in
        match r0 with
        | [] => [REPLACEMENT]
        | b1 :: r1 =>
            if in_range lo hi b1 then
              match r1 with
              | [] => [REPLACEMENT]
              | b2 :: r2 =>
                  if in_range 0x80 0xBF b2 then
                    match r2 with
                    | [] => [REPLACEMENT]
                    | b3 :: r3 =>
                        if in_range 0x80 0xBF b3
                        then ((b0 - 0xF0) * 262144 + (b1 - 0x80) * 4096
                              + (b2 - 0x80) * 64 + (b3 - 0x80))
                               :: Buffer_toString r3
                        else REPLACEMENT :: Buffer_toString r2
                    end
                  else REPLACEMENT :: Buffer_toString r1
              end
            else REPLACEMENT :: Buffer_toString r0
        end
      else REPLACEMENT :: Buffer_toString r0
  end.

(** ** [decodeURIComponent] *)

Definition hex_value (c : N) : option N :=
  if in_range 48 57 c then Some (c - 48)
  else if in_range 65 70 c then Some (c - 55)
  else if in_range 97 102 c then Some (c - 87)
  else None.

Definition ParseHexOctet (h1 h2 : N) : option N :=
  match hex_value h1, hex_value h2 with
  | Some a, Some b => Some (16 * a + b)
  | _, _ => None
  end.

(** Number of leading 1 bits of an octet; 5 stands for five or more. *)
Definition leading_ones (B : N) : nat :=
  if B <? 0x80 then 0
  else if B <? 0xC0 then 1
  else if B <? 0xE0 then 2
  else if B <? 0xF0 then 3
  else if B <? 0xF8 then 4
  else 5.

Definition octets_eqb (a b : list N) : bool :=
  if list_eq_dec N.eq_dec a b then true else false.

(** The code point whose UTF-8 encoding is exactly [octets], if any. *)
Definition utf8_value (octets : list N) : option N :=
  match Buffer_toString octets with
  | [V] => if octets_eqb (utf8_encode_cp V) octets then Some V else None
  | _ => None
  end.

Definition PERCENT : N := 37.

(** The Decode operation of ECMAScript with an empty set of preserved
    escapes. The inner loop that gathers the continuation escapes of a
    multi-octet sequence is kept as state: [pending] escapes are still
    required and [octets] were gathered so far. *)
Fixpoint Decode (pending : nat) (octets : list N) (s : JSString)
  : completion JSString :=
  match s with
  | [] =>
      match pending with
      | O => Normal []
      | S _ => Throw URIError
      end
  | c :: r =>
      if c =? PERCENT then
        match r with
        | h1 :: h2 :: r2 =>
            match ParseHexOctet h1 h2 with
            | None => Throw URIError
            | Some B =>
                match pending with
                | O =>
                    match leading_ones B with
                    | O => R <- Decode O [] r2 ;; Normal (B :: R)
                    | S O => Throw URIError
                    | S (S k) =>
                        if Nat.ltb 2 k then Throw URIError
                        else Decode (S k) [B] r2
                    end
                | S O =>
                    match utf8_value (octets ++ [B]) with
                    | None => Throw URIError
                    | Some V => R <- Decode O [] r2 ;; Normal (V :: R)
                    end
                | S (S p) => Decode (S p) (octets ++ [B]) r2
                end
            end
        | _ => Throw URIError
        end
      else
        match pending with
        | O => R <- Decode O [] r ;; Normal (c :: R)
        | S _ => Throw URIError
        end
  end.

Definition decodeURIComponent (s : JSString) : completion JSString :=
  Decode O [] s.

(** ** Numbers in template literals *)

Definition Number_toString (n : N) : JSString :=
  str (NilEmpty.string_of_uint (N.to_uint n)).

(** ** The request parser *)

Record HttpRequest := {
  httpMethod : option JSString;
  target : option JSString;
  httpVersion : option JSString;
  headers : list (list JSString);
  body : option JSString
}.

(** [recv.split(sep)]: a TypeError when the receiver is undefined. *)
Definition call_split (recv : option JSString) (sep : JSString)
  : completion (list JSString) :=
  match recv with
  | Some s => Normal (split sep s)
  | None => Throw TypeError
  end.

Definition parseRequestData (data : Buffer) : completion HttpRequest :=
  let request := Buffer_toString data in
  let parts := split (CRLF ++ CRLF) request in
  let head := nth_error parts 0 in
  let body := nth_error parts 1 in
  lines <- call_split head CRLF ;;
  let startLine := nth_error lines 0 in
  let rawHeaders := tl lines in
  tokens <- call_split startLine (str " ") ;;
  let httpMethod := nth_error tokens 0 in
  let target := nth_error tokens 1 in
  let httpVersion := nth_error tokens 2 in
  let headers := map (fun header => split (str ": ") header) rawHeaders in
  Normal {| httpMethod := httpMethod;
            target := target;
            httpVersion := httpVersion;
            headers := headers;
            body := body |}.

(** ** Constants *)

Module HTTP_METHOD.
Definition GET : JSString := str "GET".
Definition POST : JSString := str "POST".
End HTTP_METHOD.

Module PATH.
Definition ROOT : JSString := str "/".
(** The literal behind the anchored pattern [/^\/echo\//]. *)
Definition ECHO : JSString := str "/echo/".
Definition USER_AGENT : JSString := str "/user-agent".
(** The literal behind the anchored pattern [/^\/files\//]. *)
Definition FILES : JSString := str "/files/".
End PATH.

Module HEADER.
Definition USER_AGENT : JSString := str "User-Agent".
Definition CONTENT_TYPE : JSString := str "Content-Type".
Definition CONTENT_LENGTH : JSString := str "Content-Length".
End HEADER.

Module CONTENT_TYPE.
Definition TEXT : JSString := str "text/plain".
Definition FILE : JSString := str "application/octet-stream".
End CONTENT_TYPE.

Inductive HTTP_STATUS := OK | CREATED | NOT_FOUND | INTERNAL_SERVER_ERROR.

Definition RESPONSE_START_LINE (httpStatus : HTTP_STATUS) : JSString :=
  match httpStatus with
  | OK => str "HTTP/1.1 200 OK" ++ CRLF
  | CREATED => str "HTTP/1.1 201 Created" ++ CRLF
  | NOT_FOUND => str "HTTP/1.1 404 Not Found" ++ CRLF
  | INTERNAL_SERVER_ERROR => str "HTTP/1.1 500 Internal Server Error" ++ CRLF
  end.

(** ** Serialization *)

(** A response header value is a string or a number. *)
Inductive HeaderValue :=
| HString (s : JSString)
| HNumber (n : N).

(** A response body is a string or, for a file, the buffer read. *)
Inductive BodyValue :=
| BString (s : JSString)
| BBuffer (b : Buffer).

Definition HeaderValue_toString (v : HeaderValue) : JSString :=
  match v with
  | HString s => s
  | HNumber n => Number_toString n
  end.

(** What [join] makes of the body element of the array. *)
Definition BodyValue_toString (b : BodyValue) : JSString :=
  match b with
  | BString s => s
  | BBuffer b => Buffer_toString b
  end.

Definition generateHeader (key : JSString) (value : HeaderValue) : JSString :=
  key ++ str ": " ++ HeaderValue_toString value ++ CRLF.

(** The three fields of the parameter object; [None] is an omitted field,
    replaced by its default. *)
Definition generateResponse (httpStatus : HTTP_STATUS)
    (headers : option (list (JSString * HeaderValue)))
    (body : option BodyValue) : JSString :=
  let headers := match headers with Some h => h | None => [] end in
  let body := match body with Some b => b | None => BString [] end in
  let startLine := RESPONSE_START_LINE httpStatus in
  let responseHeaders :=
    map (fun '(key, value) => generateHeader key value) headers in
  let emptyLine := CRLF in
  join_empty ([startLine] ++ responseHeaders ++ [emptyLine; BodyValue_toString body]).

(** ** Handlers that do not touch the disk *)

Definition getRootResponse (httpRequest : HttpRequest) : JSString :=
  generateResponse OK None None.

Definition getNotFoundResponse (httpRequest : HttpRequest) : JSString :=
  generateResponse NOT_FOUND None None.

Definition getInternalServerErrorResponse (httpRequest : HttpRequest) : JSString :=
  generateResponse INTERNAL_SERVER_ERROR None None.

(** [recv.replace(/^p/, empty)] and [recv.match(/^p/)]: a TypeError when the
    receiver is undefined. *)
Definition call_replace (recv : option JSString) (p : JSString)
  : completion JSString :=
  match recv with
  | Some s => Normal (replace_prefix p s)
  | None => Throw TypeError
  end.

Definition call_match (recv : option JSString) (p : JSString)
  : completion bool :=
  match recv with
  | Some s => Normal (match_prefix p s)
  | None => Throw TypeError
  end.

Definition getEchoResponse (httpRequest : HttpRequest) : completion JSString :=
  message <- call_replace (target httpRequest) PATH.ECHO ;;
  body <- decodeURIComponent message ;;
  let bodyLength := Buffer_byteLength body in
  let headers :=
    [ (HEADER.CONTENT_TYPE, HString CONTENT_TYPE.TEXT);
      (HEADER.CONTENT_LENGTH, HNumber bodyLength) ] in
  Normal (generateResponse OK (Some headers) (Some (BString body))).

(** The callback of [headers.find]: the first element of the entry is the
    key looked for. *)
Definition is_user_agent (header : list JSString) : bool :=
  strict_eq_opt (nth_error header 0) HEADER.USER_AGENT.

(** [const [, userAgent = empty] = found]: destructuring [undefined] is a
    TypeError; a missing second element takes the default. *)
Definition second_or_default (found : option (list JSString))
  : completion JSString :=
  match found with
  | None => Throw TypeError
  | Some entry =>
      match nth_error entry 1 with
      | Some v => Normal v
      | None => Normal []
      end
  end.

Definition getUserAgentResponse (httpRequest : HttpRequest) : completion JSString :=
  userAgent <- second_or_default (find is_user_agent (headers httpRequest)) ;;
  let body := userAgent in
  let bodyLength := Buffer_byteLength body in
  let responseHeaders :=
    [ (HEADER.CONTENT_TYPE, HString CONTENT_TYPE.TEXT);
      (HEADER.CONTENT_LENGTH, HNumber bodyLength) ] in
  Normal (generateResponse OK (Some responseHeaders) (Some (BString body))).

(** [getDirectoryPath]: the argument after the first [--directory], or
    undefined. *)
Fixpoint getDirectoryPath (args : list JSString) : option JSString :=
  match args with
  | [] => None
  | arg :: rest =>
      if strict_eq (str "--directory") arg then nth_error rest 0
      else getDirectoryPath rest
  end.

(** ** The server over a disk

    The three Node primitives the file routes call are taken from the
    environment: [join] of [node:path], and [readFile] and [writeFile] of
    [node:fs/promises] acting on a disk state. [readFile] gives [None] when
    its promise rejects; [writeFile] gives the disk it leaves and whether
    its promise fulfilled. [args] is [process.argv]. *)

Class Node := {
  disk : Type;
  join : JSString -> JSString -> JSString;
  readFile : disk -> JSString -> option Buffer;
  writeFile : disk -> JSString -> Buffer -> disk * bool;
  args : list JSString
}.

Section Server.

Context {node : Node}.

Definition directoryPath : option JSString := getDirectoryPath args.

(** [join(directoryPath, filename)]: [join] rejects an argument that is not
    a string with a TypeError. *)
Definition call_join (dir : option JSString) (filename : JSString)
  : completion JSString :=
  match dir with
  | Some d => Normal (join d filename)
  | None => Throw TypeError
  end.

(** [writeFile(filePath, content)]: an undefined [content] is refused with
    a TypeError before the disk is touched; a string is written as UTF-8. *)
Definition call_writeFile (d : disk) (filePath : JSString)
    (content : option JSString) : disk * bool :=
  match content with
  | Some s => writeFile d filePath (utf8_encode s)
  | None => (d, false)
  end.

(** [getFile]: the file as a buffer, or [null] ([None]) when reading
    fails. *)
Definition getFile (d : disk) (filename : JSString)
  : completion (option Buffer) :=
  path <- call_join directoryPath filename ;;
  Normal (readFile d path).

(** [saveFile]: everything thrown inside the [try] block gives [false]. *)
Definition saveFile (d : disk) (filename : JSString) (content : option JSString)
  : disk * bool :=
  match call_join directoryPath filename with
  | Normal filePath => call_writeFile d filePath content
  | Throw _ => (d, false)
  end.

Definition getFilesResponse (d : disk) (httpRequest : HttpRequest)
  : completion JSString :=
  filename <- call_replace (target httpRequest) PATH.FILES ;;
  file <- getFile d filename ;;
  match file with
  | None => Normal (getNotFoundResponse httpRequest)
  | Some file =>
      let body := file in
      let bodyLength := byteLength body in
      let responseHeaders :=
        [ (HEADER.CONTENT_TYPE, HString CONTENT_TYPE.FILE);
          (HEADER.CONTENT_LENGTH, HNumber bodyLength) ] in
      Normal (generateResponse OK (Some responseHeaders) (Some (BBuffer body)))
  end.

Definition getSaveFilesResponse (d : disk) (httpRequest : HttpRequest)
  : completion (JSString * disk) :=
  filename <- call_replace (target httpRequest) PATH.FILES ;;
  let (d', isSaved) := saveFile d filename (body httpRequest) in
  if negb isSaved then Normal (getInternalServerErrorResponse httpRequest, d')
  else Normal (generateResponse CREATED None None, d').

(** [a && b] where evaluating [b] may throw. *)
Definition and_then (a : bool) (b : completion bool) : completion bool :=
  if a then b else Normal false.

(** The part of [getResponse] that follows the parse. *)
Definition dispatch (d : disk) (httpRequest : HttpRequest)
  : completion (JSString * disk) :=
  let target := target httpRequest in
  let httpMethod := httpMethod httpRequest in
  if strict_eq_opt httpMethod HTTP_METHOD.GET && strict_eq_opt target PATH.ROOT
  then Normal (getRootResponse httpRequest, d)
  else
    isEcho <- and_then (strict_eq_opt httpMethod HTTP_METHOD.GET)
                       (call_match target PATH.ECHO) ;;
    if isEcho
    then response <- getEchoResponse httpRequest ;; Normal (response, d)
    else
      if strict_eq_opt httpMethod HTTP_METHOD.GET
         && strict_eq_opt target PATH.USER_AGENT
      then response <- getUserAgentResponse httpRequest ;; Normal (response, d)
      else
        isFiles <- and_then (strict_eq_opt httpMethod HTTP_METHOD.GET)
                            (call_match target PATH.FILES) ;;
        if isFiles
        then response <- getFilesResponse d httpRequest ;; Normal (response, d)
        else
          isSave <- and_then (strict_eq_opt httpMethod HTTP_METHOD.POST)
                             (call_match target PATH.FILES) ;;
          if isSave
          then getSaveFilesResponse d httpRequest
          else Normal (getNotFoundResponse httpRequest, d).

Definition getResponse (d : disk) (data : Buffer) : completion (JSString * disk) :=
  httpRequest <- parseRequestData data ;;
  dispatch d httpRequest.

(** The listener on [data]: the octets [socket.write(response)] sends.
    Nothing is sent when [getResponse] throws. *)
Definition on_data (d : disk) (data : Buffer) : completion (Buffer * disk) :=
  res <- getResponse d data ;;
  Normal (utf8_encode (fst res), snd res).

End Server.

(** ** An in-memory disk

    A concrete environment on which the server can be run: files are kept
    in an association list from paths to contents, [join] puts a slash
    between its arguments, and [write_readonly] is a [writeFile] that always
    fails, as on a medium mounted read-only. *)

Module MemDisk.

Definition t := list (JSString * Buffer).

Definition path_join (a b : JSString) : JSString := a ++ str "/" ++ b.

Fixpoint read (d : t) (path : JSString) : option Buffer :=
  match d with
  | [] => None
  | (p, content) :: rest =>
      if strict_eq p path then Some content else read rest path
  end.

Definition write (d : t) (path : JSString) (content : Buffer) : t * bool :=
  ((path, content) :: d, true).

Definition write_readonly (d : t) (path : JSString) (content : Buffer)
  : t * bool := (d, false).

Definition argv : list JSString :=
  [str "node"; str "app/main.js"; str "--directory"; str "/tmp"].

Definition node : Node :=
  {| disk := t; join := path_join; readFile := read; writeFile := write;
     args := argv |}.

Definition readonly : Node :=
  {| disk := t; join := path_join; readFile := read;
     writeFile := write_readonly; args := argv |}.

Definition serve : t -> Buffer -> completion (JSString * t) :=
  getResponse (node := node).

Definition serve_readonly : t -> Buffer -> completion (JSString * t) :=
  getResponse (node := readonly).

End MemDisk.

(** ** The specification's vocabulary *)

(** Splitting once, on the first occurrence of a separator: the text before
    it and, when the separator occurs, the text after it. *)
Fixpoint split_once (sep s : JSString) : JSString * option JSString :=
  match s with
  | [] => ([], None)
  | c :: s' =>
      if starts_with sep s then ([], Some (skipn (List.length sep) s))
      else let (before, after) := split_once sep s' in (c :: before, after)
  end.

(** Percent-encoding in the sense of [encodeURIComponent]: letters, digits
    and the marks - _ . ! ~ * ' ( ) stand for themselves, every other code
    point is written as the escapes of its UTF-8 octets. *)
Definition is_unreserved (c : N) : bool :=
  in_range 65 90 c || in_range 97 122 c || in_range 48 57 c
  || existsb (N.eqb c) [45; 95; 46; 33; 126; 42; 39; 40; 41].

Definition hex_digit (d : N) : N := if d <? 10 then 48 + d else 55 + d.

Definition escape_octet (b : N) : JSString :=
  [PERCENT; hex_digit (b / 16); hex_digit (b mod 16)].

Definition enc_cp (c : N) : JSString :=
  if is_unreserved c then [c] else flat_map escape_octet (utf8_encode_cp c).

Definition enc (s : JSString) : JSString := flat_map enc_cp s.

Definition printable_ascii (c : N) : Prop := 0x20 <= c <= 0x7E.

(** What a token of a start line is made of on the wire: ASCII other than
    space and CR. *)
Definition token_char (c : N) : Prop := c < 0x80 /\ c <> 32 /\ c <> CR.

(** The route table of the specification: five routes in priority order,
    each a test on method and target. *)
Inductive Route := RootRoute | EchoRoute | UserAgentRoute | FileReadRoute | FileWriteRoute.

Definition route_table : list Route :=
  [RootRoute; EchoRoute; UserAgentRoute; FileReadRoute; FileWriteRoute].

Definition route_matches (httpMethod : option JSString) (target : JSString)
    (rt : Route) : bool :=
  match rt with
  | RootRoute =>
      strict_eq_opt httpMethod HTTP_METHOD.GET && strict_eq target PATH.ROOT
  | EchoRoute =>
      strict_eq_opt httpMethod HTTP_METHOD.GET && starts_with PATH.ECHO target
  | UserAgentRoute =>
      strict_eq_opt httpMethod HTTP_METHOD.GET && strict_eq target PATH.USER_AGENT
  | FileReadRoute =>
      strict_eq_opt httpMethod HTTP_METHOD.GET && starts_with PATH.FILES target
  | FileWriteRoute =>
      strict_eq_opt httpMethod HTTP_METHOD.POST && starts_with PATH.FILES target
  end.

Definition first_match (httpMethod : option JSString) (target : JSString)
  : option Route :=
  find (route_matches httpMethod target) route_table.

(** A request matches a route when it has a target and the route's test
    holds of its method and target. *)
Definition request_matches (httpRequest : HttpRequest) (rt : Route) : bool :=
  match target httpRequest with
  | Some t => route_matches (httpMethod httpRequest) t rt
  | None => false
  end.

(** The status-line literals of the wire protocol. *)
Definition STATUS_LINE (httpStatus : HTTP_STATUS) : JSString :=
  match httpStatus with
  | OK => str "HTTP/1.1 200 OK"
  | CREATED => str "HTTP/1.1 201 Created"
  | NOT_FOUND => str "HTTP/1.1 404 Not Found"
  | INTERNAL_SERVER_ERROR => str "HTTP/1.1 500 Internal Server Error"
  end.

(** Serialization as the specification words it. *)
Fixpoint header_lines (headers : list (JSString * HeaderValue)) : JSString :=
  match headers with
  | [] => []
  | (name, value) :: rest =>
      name ++ str ": " ++ HeaderValue_toString value ++ CRLF ++ header_lines rest
  end.

Definition serialize (httpStatus : HTTP_STATUS)
    (headers : list (JSString * HeaderValue)) (body : JSString) : JSString :=
  STATUS_LINE httpStatus ++ CRLF ++ header_lines headers ++ CRLF ++ body.

(** The header lists the handlers build: none, or Content-Type followed by
    Content-Length. *)
Definition content_headers (contentType : JSString) (contentLength : N)
  : list (JSString * HeaderValue) :=
  [ (HEADER.CONTENT_TYPE, HString contentType);
    (HEADER.CONTENT_LENGTH, HNumber contentLength) ].

Section Routes.

Context {node : Node}.

(** The handler of a route, and the 404 of a request no route matches. *)
Definition run_route (rt : option Route) (d : disk) (httpRequest : HttpRequest)
  : completion (JSString * disk) :=
  match rt with
  | Some RootRoute => Normal (getRootResponse httpRequest, d)
  | Some EchoRoute =>
      response <- getEchoResponse httpRequest ;; Normal (response, d)
  | Some UserAgentRoute =>
      response <- getUserAgentResponse httpRequest ;; Normal (response, d)
  | Some FileReadRoute =>
      response <- getFilesResponse d httpRequest ;;
      Normal (response, d)
  | Some FileWriteRoute => getSaveFilesResponse d httpRequest
  | None => Normal (getNotFoundResponse httpRequest, d)
  end.

End Routes.

(** ** Further vocabulary *)

(** [sep] occurs somewhere in [s]. *)
Fixpoint occurs (sep s : JSString) : bool :=
  match s with
  | [] => starts_with sep []
  | _ :: s' => starts_with sep s || occurs sep s'
  end.

(** What lines and tokens are made of: a well-formed code point other than
    CR, and for a token also other than space. *)
Definition line_char (c : N) : Prop := is_scalar c = true /\ c <> CR.

Definition word_char (c : N) : Prop := line_char c /\ c <> 32.

Definition COLON : N := 58.

(** A header as a client writes it: a name without colon and a value in
    which colon-space does not occur, both on one line. *)
Definition header_ok (h : JSString * JSString) : Prop :=
  Forall line_char (fst h) /\ ~ In COLON (fst h)
  /\ Forall line_char (snd h) /\ occurs (str ": ") (snd h) = false.

Definition header_line (h : JSString * JSString) : JSString :=
  fst h ++ str ": " ++ snd h.

(** The text of a request of the wire protocol: start line, header lines,
    blank line, body. *)
Definition request_text (method target version : JSString)
    (hs : list (JSString * JSString)) (body : JSString) : JSString :=
  (method ++ 32 :: target ++ 32 :: version)
  ++ concat (map (fun h => CRLF ++ header_line h) hs)
  ++ (CRLF ++ CRLF) ++ body.

(** The entry the parser makes of a header. *)
Definition header_entry (h : JSString * JSString) : list JSString :=
  [fst h; snd h].

(** The in-memory disk of a server started without [--directory]. *)
Definition MemDisk_nodir : Node :=
  {| disk := MemDisk.t; join := MemDisk.path_join; readFile := MemDisk.read;
     writeFile := MemDisk.write; args := [str "node"; str "app/main.js"] |}.

(** ** The revision before the file routes

    [getResponse] of the revision that knows the root, echo and user-agent
    routes only. Its parser, handlers and serialization are those above,
    word for word. *)

Module UserAgentStage.

Definition getResponse (data : Buffer) : completion JSString :=
  httpRequest <- parseRequestData data ;;
  let target := target httpRequest in
  let httpMethod := httpMethod httpRequest in
  if strict_eq_opt httpMethod HTTP_METHOD.GET && strict_eq_opt target PATH.ROOT
  then Normal (getRootResponse httpRequest)
  else
    isEcho <- (if strict_eq_opt httpMethod HTTP_METHOD.GET
               then call_match target PATH.ECHO else Normal false) ;;
    if isEcho
    then getEchoResponse httpRequest
    else
      if strict_eq_opt httpMethod HTTP_METHOD.GET
         && strict_eq_opt target PATH.USER_AGENT
      then getUserAgentResponse httpRequest
      else Normal (getNotFoundResponse httpRequest).

End UserAgentStage.

(** * Properties *)

(** ** Checks on concrete inputs *)

Example split_ex1 :
  split (str ",") (str "a,b,,c") = [str "a"; str "b"; []; str "c"].
Proof. reflexivity. Qed.

Example split_ex2 : split (str ": ") ([]) = [[]].
Proof. reflexivity. Qed.

Example split_ex3 :
  split (str ": ") (str "Host: a: b: ") = [str "Host"; str "a"; str "b"; []].
Proof. reflexivity. Qed.

Example toString_ascii : Buffer_toString (bytes "GET / HTTP/1.1") = str "GET / HTTP/1.1".
Proof. reflexivity. Qed.

Example toString_euro : Buffer_toString [0xE2; 0x82; 0xAC] = [0x20AC].
Proof. reflexivity. Qed.

Example toString_cut : Buffer_toString [0x41; 0xE2; 0x82; 0x42] = [0x41; REPLACEMENT; 0x42].
Proof. reflexivity. Qed.

Example toString_surrogate : Buffer_toString [0xED; 0xA0; 0x80] = [REPLACEMENT; REPLACEMENT; REPLACEMENT].
Proof. reflexivity. Qed.

Example encode_euro : utf8_encode [0x20AC; 0x1F600] = [0xE2; 0x82; 0xAC; 0xF0; 0x9F; 0x98; 0x80].
Proof. reflexivity. Qed.

Example decode_ex1 : decodeURIComponent (str "a%20b%2Fc") = Normal (str "a b/c").
Proof. reflexivity. Qed.

Example decode_ex2 : decodeURIComponent (str "%E2%82%AC!") = Normal [0x20AC; 33].
Proof. reflexivity. Qed.

Example decode_ex3 : decodeURIComponent (str "%") = Throw URIError.
Proof. reflexivity. Qed.

Example decode_ex4 : decodeURIComponent (str "%C0%80") = Throw URIError.
Proof. reflexivity. Qed.

Example decode_ex5 : decodeURIComponent (str "%E2%82x") = Throw URIError.
Proof. reflexivity. Qed.

Example decode_ex6 : decodeURIComponent (str "%F0%9F%98%80") = Normal [0x1F600].
Proof. reflexivity. Qed.

Example decode_ex7 : decodeURIComponent (str "%ED%A0%80") = Throw URIError.
Proof. reflexivity. Qed.

Example Number_toString_ex : Number_toString 0 = str "0" /\ Number_toString 1024 = str "1024".
Proof. split; reflexivity. Qed.

Example scenario_root :
  MemDisk.serve [] (bytes "GET / HTTP/1.1" ++ CRLF ++ CRLF)
  = Normal (str "HTTP/1.1 200 OK" ++ CRLF ++ CRLF, []).
Proof. reflexivity. Qed.

Example scenario_echo :
  MemDisk.serve [] (bytes "GET /echo/abc HTTP/1.1" ++ CRLF ++ CRLF)
  = Normal (str "HTTP/1.1 200 OK" ++ CRLF
            ++ str "Content-Type: text/plain" ++ CRLF
            ++ str "Content-Length: 3" ++ CRLF ++ CRLF ++ str "abc", []).
Proof. reflexivity. Qed.

Example scenario_user_agent :
  MemDisk.serve []
    (bytes "GET /user-agent HTTP/1.1" ++ CRLF
     ++ bytes "Host: localhost:4221" ++ CRLF
     ++ bytes "User-Agent: curl/8.0" ++ CRLF ++ CRLF)
  = Normal (str "HTTP/1.1 200 OK" ++ CRLF
            ++ str "Content-Type: text/plain" ++ CRLF
            ++ str "Content-Length: 8" ++ CRLF ++ CRLF ++ str "curl/8.0", []).
Proof. reflexivity. Qed.

Example scenario_missing_file :
  MemDisk.serve [] (bytes "GET /files/missing HTTP/1.1" ++ CRLF ++ CRLF)
  = Normal (str "HTTP/1.1 404 Not Found" ++ CRLF ++ CRLF, []).
Proof. reflexivity. Qed.

Example scenario_post_then_get :
  MemDisk.serve [] (bytes "POST /files/f HTTP/1.1" ++ CRLF ++ CRLF ++ bytes "hello")
  = Normal (str "HTTP/1.1 201 Created" ++ CRLF ++ CRLF,
            [(str "/tmp/f", bytes "hello")])
  /\ MemDisk.serve [(str "/tmp/f", bytes "hello")]
       (bytes "GET /files/f HTTP/1.1" ++ CRLF ++ CRLF)
     = Normal (str "HTTP/1.1 200 OK" ++ CRLF
               ++ str "Content-Type: application/octet-stream" ++ CRLF
               ++ str "Content-Length: 5" ++ CRLF ++ CRLF ++ str "hello",
               [(str "/tmp/f", bytes "hello")]).
Proof. split; reflexivity. Qed.

Example scenario_put :
  MemDisk.serve [] (bytes "PUT /files/f HTTP/1.1" ++ CRLF ++ CRLF ++ bytes "hello")
  = Normal (str "HTTP/1.1 404 Not Found" ++ CRLF ++ CRLF, []).
Proof. reflexivity. Qed.

(** ** [split] *)

Lemma starts_with_length (p s : JSString) :
  starts_with p s = true -> (List.length p <= List.length s)%nat.
Proof.
  revert s; induction p as [|a p IH]; intros [|b s] H; simpl in *;
    try lia; try discriminate.
  apply andb_true_iff in H as [_ H]. apply IH in H. lia.
Qed.

Lemma split_go_nonempty (sep : JSString) (skip : nat) (cur s : JSString) :
  exists piece rest, split_go sep skip cur s = piece :: rest.
Proof.
  revert skip cur; induction s as [|c s IH]; intros skip cur; simpl.
  - eauto.
  - destruct skip as [|k]; [|apply IH].
    destruct (starts_with sep (c :: s)); [eauto | apply IH].
Qed.

Lemma split_nonempty (sep s : JSString) :
  exists piece rest, split sep s = piece :: rest.
Proof. apply split_go_nonempty. Qed.

Lemma split_go_skip (sep : JSString) (k : nat) (cur s : JSString) :
  (k <= List.length s)%nat ->
  split_go sep k cur s = split_go sep O cur (skipn k s).
Proof.
  revert k; induction s as [|c s IH]; intros [|k] Hk; simpl in *;
    try reflexivity; try lia.
  apply IH; lia.
Qed.

(** [split] cuts at the first occurrence and goes on splitting what
    follows it. *)
Lemma split_go_once (sep cur s : JSString) :
  sep <> [] ->
  split_go sep O cur s =
    match split_once sep s with
    | (before, None) => [rev cur ++ before]
    | (before, Some after) => (rev cur ++ before) :: split_go sep O [] after
    end.
Proof.
  intros Hsep; revert cur; induction s as [|c s IH]; intros cur.
  - simpl. now rewrite app_nil_r.
  - cbn [split_go split_once].
    destruct (starts_with sep (c :: s)) eqn:Hp.
    + rewrite app_nil_r. f_equal.
      apply starts_with_length in Hp.
      destruct sep as [|a sep]; [congruence|].
      simpl in *. apply split_go_skip. lia.
    + rewrite IH. destruct (split_once sep s) as [before [after|]];
        simpl; now rewrite <- app_assoc.
Qed.

Lemma split_once_spec (sep s : JSString) :
  sep <> [] ->
  split sep s =
    match split_once sep s with
    | (before, None) => [before]
    | (before, Some after) => before :: split sep after
    end.
Proof. intros H. unfold split. now rewrite split_go_once. Qed.

(** What the parser keeps of a request: the head is the text before the
    first blank line; the body is the text between the first blank line
    and the next one, if any. *)
Lemma parse_body_spec (data : Buffer) :
  exists r, parseRequestData data = Normal r
    /\ body r =
         match snd (split_once (CRLF ++ CRLF) (Buffer_toString data)) with
         | None => None
         | Some after => Some (fst (split_once (CRLF ++ CRLF) after))
         end.
Proof.
  unfold parseRequestData.
  rewrite (split_once_spec (CRLF ++ CRLF)) by discriminate.
  destruct (split_once (CRLF ++ CRLF) (Buffer_toString data)) as [before after].
  assert (Hhead : forall rest, nth_error (before :: rest) 0 = Some before)
    by reflexivity.
  destruct after as [after|]; rewrite Hhead; cbn [call_split bind];
    destruct (split_nonempty CRLF before) as (startLine & rawHeaders & ->);
    cbn [nth_error call_split bind tl];
    destruct (split_nonempty (str " ") startLine) as (tok & toks & ->);
    eexists; (split; [reflexivity|]); cbn [body snd nth_error]; try reflexivity.
  rewrite (split_once_spec (CRLF ++ CRLF)) by discriminate.
  destruct (split_once (CRLF ++ CRLF) after) as [b [rest|]]; reflexivity.
Qed.

(** C7. The request parser is total: whatever octets arrive, with or
    without a blank line, a complete start line or well-formed header
    lines, [parseRequestData] returns a request record and raises
    nothing. *)
Theorem parseRequestData_total (data : Buffer) :
  exists r, parseRequestData data = Normal r.
Proof.
  unfold parseRequestData.
  destruct (split_nonempty (CRLF ++ CRLF) (Buffer_toString data))
    as (head & more & ->).
  cbn [nth_error call_split bind].
  destruct (split_nonempty CRLF head) as (startLine & rawHeaders & ->).
  cbn [nth_error call_split bind].
  destruct (split_nonempty (str " ") startLine) as (tok & toks & ->).
  cbn [bind]. eauto.
Qed.

(** The degenerate requests the parser returns. *)
Example parse_no_blank_line :
  parseRequestData (bytes "GET /") =
    Normal {| httpMethod := Some (str "GET"); target := Some (str "/");
              httpVersion := None; headers := []; body := None |}.
Proof. reflexivity. Qed.

Example parse_bad_header :
  parseRequestData (bytes "GET" ++ CRLF ++ bytes "Host") =
    Normal {| httpMethod := Some (str "GET"); target := None;
              httpVersion := None; headers := [[str "Host"]]; body := None |}.
Proof. reflexivity. Qed.

Example parse_empty : 
  parseRequestData [] =
    Normal {| httpMethod := Some []; target := None;
              httpVersion := None; headers := []; body := None |}.
Proof. reflexivity. Qed.

(** C2. The parser does not split once on the first blank line: a body that
    itself holds CR LF CR LF loses everything from there on. For a POST
    whose body is a, CR LF CR LF, b, splitting once keeps that whole text
    after the first separator, while the request record holds only a, the
    part before the second separator. *)
Theorem parseRequestData_truncates_body :
  let data := bytes "POST /files/f HTTP/1.1" ++ CRLF ++ CRLF
              ++ bytes "a" ++ CRLF ++ CRLF ++ bytes "b" in
  snd (split_once (CRLF ++ CRLF) (Buffer_toString data))
    = Some (str "a" ++ CRLF ++ CRLF ++ str "b")
  /\ parseRequestData data =
       Normal {| httpMethod := Some (str "POST");
                 target := Some (str "/files/f");
                 httpVersion := Some (str "HTTP/1.1");
                 headers := [];
                 body := Some (str "a") |}.
Proof. split; reflexivity. Qed.

(** C8. A header line is not split once: a value that itself holds a colon
    and a space is cut there, and the lookup of the user agent returns only
    its first part. *)
Theorem header_value_truncated :
  let data := bytes "GET /user-agent HTTP/1.1" ++ CRLF
              ++ bytes "User-Agent: a: b" ++ CRLF ++ CRLF in
  split_once (str ": ") (str "User-Agent: a: b")
    = (str "User-Agent", Some (str "a: b"))
  /\ (exists r, parseRequestData data = Normal r
        /\ headers r = [[str "User-Agent"; str "a"; str "b"]])
  /\ MemDisk.serve [] data =
       Normal (generateResponse OK
                 (Some (content_headers CONTENT_TYPE.TEXT 1))
                 (Some (BString (str "a"))), []).
Proof.
  split; [vm_compute; reflexivity|].
  split; [|vm_compute; reflexivity].
  eexists; split; vm_compute; reflexivity.
Qed.

(** A header line without the separator gives an entry of one element, and
    the lookup of the user agent takes the default for its value. *)
Example header_without_separator :
  let data := bytes "GET /user-agent HTTP/1.1" ++ CRLF
              ++ bytes "User-Agent" ++ CRLF ++ CRLF in
  (exists r, parseRequestData data = Normal r
        /\ headers r = [[str "User-Agent"]])
  /\ MemDisk.serve [] data =
       Normal (generateResponse OK
                 (Some (content_headers CONTENT_TYPE.TEXT 0))
                 (Some (BString [])), []).
Proof. split; [eexists; split|]; vm_compute; reflexivity. Qed.

(** ** Strings and prefixes *)

Lemma strict_eq_true (a b : JSString) : strict_eq a b = true <-> a = b.
Proof. unfold strict_eq. destruct (list_eq_dec N.eq_dec a b); split; congruence. Qed.

Lemma strict_eq_false (a b : JSString) : strict_eq a b = false <-> a <> b.
Proof. unfold strict_eq. destruct (list_eq_dec N.eq_dec a b); split; congruence. Qed.

Lemma strict_eq_refl (a : JSString) : strict_eq a a = true.
Proof. now apply strict_eq_true. Qed.

Lemma strict_eq_opt_true (a : option JSString) (b : JSString) :
  strict_eq_opt a b = true <-> a = Some b.
Proof.
  destruct a as [a|]; simpl; [rewrite strict_eq_true|]; split; congruence.
Qed.

Lemma strict_eq_opt_false (a : option JSString) (b : JSString) :
  strict_eq_opt a b = false <-> a <> Some b.
Proof.
  destruct a as [a|]; simpl; [rewrite strict_eq_false|]; split; congruence.
Qed.

Lemma starts_with_app (p s : JSString) : starts_with p (p ++ s) = true.
Proof.
  induction p as [|a p IH]; simpl; [reflexivity|].
  now rewrite N.eqb_refl, IH.
Qed.

Lemma skipn_length_app (p s : JSString) : skipn (List.length p) (p ++ s) = s.
Proof. induction p; simpl; auto. Qed.

Lemma replace_prefix_app (p s : JSString) : replace_prefix p (p ++ s) = s.
Proof. unfold replace_prefix. now rewrite starts_with_app, skipn_length_app. Qed.

Lemma starts_with_split (p s : JSString) :
  starts_with p s = true -> s = p ++ skipn (List.length p) s.
Proof.
  revert s; induction p as [|a p IH]; intros [|b s] H; simpl in *;
    try reflexivity; try discriminate.
  apply andb_true_iff in H as [Hab H]. apply N.eqb_eq in Hab. subst b.
  f_equal. now apply IH.
Qed.

(** ** Serialization *)

Lemma concat_generateHeader (headers : list (JSString * HeaderValue))
    (rest : list JSString) :
  concat (map (fun '(key, value) => generateHeader key value) headers ++ rest)
  = header_lines headers ++ concat rest.
Proof.
  induction headers as [|[key value] headers IH];
    cbn [map concat app header_lines].
  - reflexivity.
  - rewrite IH. unfold generateHeader. now rewrite <- !app_assoc.
Qed.

Lemma generateResponse_serialize (httpStatus : HTTP_STATUS)
    (headers : option (list (JSString * HeaderValue))) (body : option BodyValue) :
  generateResponse httpStatus headers body =
    serialize httpStatus
      (match headers with Some h => h | None => [] end)
      (match body with Some b => BodyValue_toString b | None => [] end).
Proof.
  unfold generateResponse, serialize, join_empty.
  cbn [app concat]. rewrite concat_generateHeader.
  cbn [concat]. rewrite app_nil_r.
  destruct httpStatus, body; cbn [RESPONSE_START_LINE STATUS_LINE BodyValue_toString];
    now rewrite <- !app_assoc.
Qed.

(** ** Routing *)

Section Routing.

Context {node : Node}.

(** With a target, the nested tests of [getResponse] pick the first route
    of the table that matches. *)
Lemma dispatch_first_match (d : disk) (r : HttpRequest) (t : JSString) :
  target r = Some t ->
  dispatch d r = run_route (first_match (httpMethod r) t) d r.
Proof.
  intros Ht. unfold dispatch, first_match, route_table.
  rewrite Ht. cbn [find route_matches strict_eq_opt call_match].
  unfold match_prefix.
  destruct (strict_eq_opt (httpMethod r) HTTP_METHOD.GET);
    destruct (strict_eq_opt (httpMethod r) HTTP_METHOD.POST);
    destruct (strict_eq t PATH.ROOT);
    destruct (starts_with PATH.ECHO t);
    destruct (strict_eq t PATH.USER_AGENT);
    destruct (starts_with PATH.FILES t);
    reflexivity.
Qed.

(** A method other than GET and POST falls through every test, whatever
    the target, even an undefined one. *)
Lemma dispatch_other_method (d : disk) (r : HttpRequest) :
  httpMethod r <> Some HTTP_METHOD.GET ->
  httpMethod r <> Some HTTP_METHOD.POST ->
  dispatch d r = Normal (getNotFoundResponse r, d).
Proof.
  intros Hg Hp. apply strict_eq_opt_false in Hg, Hp.
  unfold dispatch. now rewrite Hg, Hp.
Qed.

Lemma files_target_not_root (name : JSString) :
  strict_eq (PATH.FILES ++ name) PATH.ROOT = false.
Proof. apply strict_eq_false. discriminate. Qed.

Lemma files_target_not_echo (name : JSString) :
  starts_with PATH.ECHO (PATH.FILES ++ name) = false.
Proof. reflexivity. Qed.

Lemma files_target_not_user_agent (name : JSString) :
  strict_eq (PATH.FILES ++ name) PATH.USER_AGENT = false.
Proof. apply strict_eq_false. discriminate. Qed.

Lemma first_match_get_files (name : JSString) :
  first_match (Some HTTP_METHOD.GET) (PATH.FILES ++ name) = Some FileReadRoute.
Proof.
  unfold first_match, route_table. cbn [find route_matches].
  rewrite files_target_not_root, files_target_not_echo,
    files_target_not_user_agent, starts_with_app.
  reflexivity.
Qed.

Lemma first_match_post_files (name : JSString) :
  first_match (Some HTTP_METHOD.POST) (PATH.FILES ++ name) = Some FileWriteRoute.
Proof.
  unfold first_match, route_table. cbn [find route_matches].
  rewrite starts_with_app. reflexivity.
Qed.

Lemma getResponse_parsed (d : disk) (data : Buffer) (r : HttpRequest) :
  parseRequestData data = Normal r -> getResponse d data = dispatch d r.
Proof. intros H. unfold getResponse. now rewrite H. Qed.

(** A GET or POST request without a target is stopped by a TypeError at
    the first prefix test it reaches. *)
Lemma dispatch_no_target (d : disk) (r : HttpRequest) :
  target r = None ->
  httpMethod r = Some HTTP_METHOD.GET \/ httpMethod r = Some HTTP_METHOD.POST ->
  dispatch d r = Throw TypeError.
Proof.
  intros Ht Hm. unfold dispatch. rewrite Ht.
  destruct Hm as [-> | ->]; reflexivity.
Qed.

(** C4, as the code has it. For a parsed request that has a target, the
    response is that of the handler of the first route matching it in the
    order root, echo, user agent, file read, file write, and 404 when no
    route matches; a request whose method is neither GET nor POST gets 404
    whatever its target, even when it has none; a GET or POST request
    that has no target gets no response but a TypeError. *)
Theorem routing_priority (d : disk) (data : Buffer) (r : HttpRequest) :
  parseRequestData data = Normal r ->
  (forall t, target r = Some t ->
     getResponse d data = run_route (first_match (httpMethod r) t) d r
     /\ ((forall rt, route_matches (httpMethod r) t rt = false) ->
         getResponse d data = Normal (serialize NOT_FOUND [] [], d)))
  /\ (httpMethod r <> Some HTTP_METHOD.GET ->
      httpMethod r <> Some HTTP_METHOD.POST ->
      getResponse d data = Normal (serialize NOT_FOUND [] [], d))
  /\ (target r = None ->
      httpMethod r = Some HTTP_METHOD.GET
      \/ httpMethod r = Some HTTP_METHOD.POST ->
      getResponse d data = Throw TypeError).
Proof.
  intros Hparse. rewrite (getResponse_parsed d data r Hparse).
  split; [|split].
  - intros t Ht. rewrite (dispatch_first_match d r t Ht). split; [reflexivity|].
    intros Hnone. unfold first_match, route_table. cbn [find].
    rewrite !Hnone. cbn [run_route]. unfold getNotFoundResponse.
    now rewrite generateResponse_serialize.
  - intros Hg Hp. rewrite dispatch_other_method by assumption.
    unfold getNotFoundResponse. now rewrite generateResponse_serialize.
  - apply dispatch_no_target.
Qed.

Lemma getResponse_get_files (d : disk) (data : Buffer) (r : HttpRequest)
    (name : JSString) :
  parseRequestData data = Normal r ->
  httpMethod r = Some HTTP_METHOD.GET ->
  target r = Some (PATH.FILES ++ name) ->
  getResponse d data =
    match getFile d name with
    | Throw e => Throw e
    | Normal None => Normal (serialize NOT_FOUND [] [], d)
    | Normal (Some file) =>
        Normal (serialize OK
                  (content_headers CONTENT_TYPE.FILE (byteLength file))
                  (Buffer_toString file), d)
    end.
Proof.
  intros Hparse Hm Ht. rewrite (getResponse_parsed d data r Hparse).
  rewrite (dispatch_first_match d r _ Ht), Hm, first_match_get_files.
  cbn [run_route]. unfold getFilesResponse.
  rewrite Ht. cbn [call_replace bind]. rewrite replace_prefix_app.
  fold getFile. destruct (getFile d name) as [[file|]|e]; cbn [bind];
    unfold getNotFoundResponse; try rewrite generateResponse_serialize;
    reflexivity.
Qed.

Lemma getResponse_post_files (d : disk) (data : Buffer) (r : HttpRequest)
    (name : JSString) :
  parseRequestData data = Normal r ->
  httpMethod r = Some HTTP_METHOD.POST ->
  target r = Some (PATH.FILES ++ name) ->
  getResponse d data =
    Normal (serialize (if snd (saveFile d name (body r))
                       then CREATED else INTERNAL_SERVER_ERROR) [] [],
            fst (saveFile d name (body r))).
Proof.
  intros Hparse Hm Ht. rewrite (getResponse_parsed d data r Hparse).
  rewrite (dispatch_first_match d r _ Ht), Hm, first_match_post_files.
  cbn [run_route]. unfold getSaveFilesResponse.
  rewrite Ht. cbn [call_replace bind]. rewrite replace_prefix_app.
  fold saveFile. destruct (saveFile d name (body r)) as [d' [|]];
    cbn [negb fst snd]; unfold getInternalServerErrorResponse;
    now rewrite generateResponse_serialize.
Qed.

(** C6. For a parsed GET request on a name under the files prefix, a null
    answer of [getFile] gives 404; for a parsed POST request on such a
    name, a failed [saveFile] gives 500 and a successful one gives 201
    Created with an empty body. *)
Theorem file_routes_status (d : disk) (data : Buffer) (r : HttpRequest)
    (name : JSString) :
  parseRequestData data = Normal r ->
  target r = Some (PATH.FILES ++ name) ->
  (httpMethod r = Some HTTP_METHOD.GET ->
   getFile d name = Normal None ->
   getResponse d data = Normal (serialize NOT_FOUND [] [], d))
  /\ (httpMethod r = Some HTTP_METHOD.POST ->
      forall d', saveFile d name (body r) = (d', false) ->
      getResponse d data = Normal (serialize INTERNAL_SERVER_ERROR [] [], d'))
  /\ (httpMethod r = Some HTTP_METHOD.POST ->
      forall d', saveFile d name (body r) = (d', true) ->
      getResponse d data = Normal (serialize CREATED [] [], d')).
Proof.
  intros Hparse Ht. repeat split.
  - intros Hm Hfile.
    now rewrite (getResponse_get_files d data r name Hparse Hm Ht), Hfile.
  - intros Hm d' Hsave.
    now rewrite (getResponse_post_files d data r name Hparse Hm Ht), Hsave.
  - intros Hm d' Hsave.
    now rewrite (getResponse_post_files d data r name Hparse Hm Ht), Hsave.
Qed.

Lemma find_user_agent_none (hs : list (list JSString)) :
  (forall h, In h hs -> nth_error h 0 <> Some HEADER.USER_AGENT) ->
  find is_user_agent hs = None.
Proof.
  induction hs as [|h hs IH]; intros H; [reflexivity|].
  cbn [find]. unfold is_user_agent at 1.
  rewrite (proj2 (strict_eq_opt_false _ _) (H h (or_introl eq_refl))).
  apply IH. intros h' Hin. apply H. now right.
Qed.

(** C1. A GET request for the user-agent path that carries no header named
    User-Agent does not get an empty 200 response: destructuring the
    undefined result of the lookup raises a TypeError. *)
Theorem user_agent_absent_throws (d : disk) (data : Buffer) (r : HttpRequest) :
  parseRequestData data = Normal r ->
  httpMethod r = Some HTTP_METHOD.GET ->
  target r = Some PATH.USER_AGENT ->
  (forall h, In h (headers r) -> nth_error h 0 <> Some HEADER.USER_AGENT) ->
  getResponse d data = Throw TypeError.
Proof.
  intros Hparse Hm Ht Hnone. rewrite (getResponse_parsed d data r Hparse).
  rewrite (dispatch_first_match d r _ Ht), Hm.
  change (first_match (Some HTTP_METHOD.GET) PATH.USER_AGENT)
    with (Some UserAgentRoute).
  cbn [run_route]. unfold getUserAgentResponse.
  now rewrite (find_user_agent_none _ Hnone).
Qed.

(** C10. The response function is partial: on the GET request whose target
    is the echo prefix followed by a lone percent sign the decoding raises
    a URIError, and [getResponse] throws it instead of returning a
    response. *)
Theorem echo_malformed_escape_throws (d : disk) :
  let data := bytes "GET /echo/% HTTP/1.1" ++ CRLF ++ CRLF in
  (exists r, parseRequestData data = Normal r
     /\ httpMethod r = Some HTTP_METHOD.GET
     /\ (exists rest, target r = Some (PATH.ECHO ++ rest)
           /\ decodeURIComponent rest = Throw URIError))
  /\ getResponse d data = Throw URIError.
Proof.
  split; [|reflexivity].
  eexists; split; [reflexivity|]. split; [reflexivity|].
  exists (str "%"). split; reflexivity.
Qed.

End Routing.

(** ** UTF-8: decoding undoes encoding, and decoding gives scalar values *)

Ltac Zify.zify_post_hook ::= Z.to_euclidean_division_equations.

Ltac test_to_prop H :=
  repeat first
    [ rewrite andb_true_iff in H | rewrite andb_false_iff in H
    | rewrite orb_true_iff in H | rewrite orb_false_iff in H
    | rewrite N.ltb_lt in H | rewrite N.ltb_ge in H
    | rewrite N.leb_le in H | rewrite N.leb_gt in H
    | rewrite N.eqb_eq in H | rewrite N.eqb_neq in H ].

(** Decide an innermost test of the goal; a branch the hypotheses exclude
    is closed by arithmetic. *)
Ltac decide_test :=
  match goal with
  | |- context [if ?b then _ else _] =>
      lazymatch b with
      | context [if _ then _ else _] => fail
      | _ => idtac
      end;
      let E := fresh "E" in
      destruct b eqn:E; test_to_prop E; try (exfalso; lia)
  end.

Lemma is_scalar_iff (c : N) :
  is_scalar c = true <-> c < 0xD800 \/ 0xE000 <= c < 0x110000.
Proof.
  unfold is_scalar.
  rewrite orb_true_iff, andb_true_iff, N.ltb_lt, N.leb_le, N.ltb_lt.
  reflexivity.
Qed.

Lemma Buffer_toString_encode_cp (c : N) (rest : Buffer) :
  is_scalar c = true ->
  Buffer_toString (utf8_encode_cp c ++ rest) = c :: Buffer_toString rest.
Proof.
  intros Hc. unfold utf8_encode_cp. rewrite Hc.
  apply is_scalar_iff in Hc.
  destruct (c <? 0x80) eqn:E1.
  - cbn [app Buffer_toString]. now rewrite E1.
  - destruct (c <? 0x800) eqn:E2; [|destruct (c <? 0x10000) eqn:E3];
      test_to_prop E1; test_to_prop E2; try test_to_prop E3;
      cbn [app Buffer_toString]; unfold in_range;
      repeat decide_test; f_equal; lia.
Qed.

Lemma Buffer_toString_utf8_encode (s : JSString) :
  Forall (fun c => is_scalar c = true) s ->
  Buffer_toString (utf8_encode s) = s.
Proof.
  induction 1 as [|c s Hc _ IH]; [reflexivity|].
  unfold utf8_encode in *. cbn [flat_map].
  now rewrite Buffer_toString_encode_cp, IH.
Qed.

Lemma Buffer_toString_scalar_upto (n : nat) (bs : Buffer) :
  (List.length bs <= n)%nat ->
  Forall (fun c => is_scalar c = true) (Buffer_toString bs).
Proof.
  revert bs; induction n as [|n IH]; intros bs Hlen.
  - destruct bs; [constructor | simpl in Hlen; lia].
  - destruct bs as [|b0 r0]; [constructor|].
    assert (Hrepl : is_scalar REPLACEMENT = true) by reflexivity.
    cbn [Buffer_toString]; unfold in_range;
      repeat first
        [ decide_test
        | match goal with
          | |- context [match ?l with [] => _ | _ :: _ => _ end] =>
              is_var l; destruct l
          end ];
      cbn [List.length] in Hlen;
      repeat (constructor; try assumption);
      try (apply IH; cbn [List.length]; lia);
      apply is_scalar_iff; lia.
Qed.

Lemma Buffer_toString_scalar (bs : Buffer) :
  Forall (fun c => is_scalar c = true) (Buffer_toString bs).
Proof. apply (Buffer_toString_scalar_upto (List.length bs)). lia. Qed.

(** ** What the parser hands over is well-formed text *)

Lemma Forall_skipn_keep {A} (P : A -> Prop) (k : nat) (l : list A) :
  Forall P l -> Forall P (skipn k l).
Proof.
  intros H; revert k; induction H as [|x l Hx Hl IH]; intros [|k]; simpl;
    auto.
Qed.

Lemma split_once_Forall (P : N -> Prop) (sep s : JSString) :
  Forall P s ->
  Forall P (fst (split_once sep s))
  /\ (forall after, snd (split_once sep s) = Some after -> Forall P after).
Proof.
  induction 1 as [|c s Hc Hs [IHb IHa]]; cbn [split_once].
  - split; [constructor | discriminate].
  - destruct (starts_with sep (c :: s)).
    + split; [constructor|]. intros after [= <-].
      apply Forall_skipn_keep. now constructor.
    + destruct (split_once sep s) as [before after]. cbn [fst snd] in *.
      split; [now constructor | assumption].
Qed.

Lemma parse_body_scalar (data : Buffer) (r : HttpRequest) (B : JSString) :
  parseRequestData data = Normal r ->
  body r = Some B ->
  Forall (fun c => is_scalar c = true) B.
Proof.
  intros Hparse HB.
  destruct (parse_body_spec data) as (r' & Hparse' & Hbody).
  rewrite Hparse in Hparse'. injection Hparse' as <-.
  rewrite HB in Hbody.
  pose proof (Buffer_toString_scalar data) as Hreq.
  apply (split_once_Forall _ (CRLF ++ CRLF)) in Hreq as [_ Hafter].
  destruct (snd (split_once (CRLF ++ CRLF) (Buffer_toString data)))
    as [after|]; [|discriminate].
  injection Hbody as ->.
  apply (split_once_Forall _ (CRLF ++ CRLF)). now apply Hafter.
Qed.

(** ** Files: what was posted is what is served *)

Section FileRoundTrip.

Context {node : Node}.

(** The one law asked of the disk: a file that was written is read back
    with the octets written. *)
Hypothesis read_after_write :
  forall d path content d',
    writeFile d path content = (d', true) -> readFile d' path = Some content.

Lemma getFile_after_saveFile (d d' : disk) (f B : JSString) :
  saveFile d f (Some B) = (d', true) ->
  getFile d' f = Normal (Some (utf8_encode B)).
Proof.
  unfold saveFile, getFile.
  destruct (call_join directoryPath f) as [path|e];
    cbn [call_writeFile bind]; intros H.
  - now rewrite (read_after_write _ _ _ _ H).
  - discriminate.
Qed.

(** A POST on a file name was answered 201 only if [saveFile] succeeded. *)
Lemma created_saved (d d' : disk) (data : Buffer) (r : HttpRequest) (f : JSString) :
  parseRequestData data = Normal r ->
  httpMethod r = Some HTTP_METHOD.POST ->
  target r = Some (PATH.FILES ++ f) ->
  getResponse d data = Normal (serialize CREATED [] [], d') ->
  saveFile d f (body r) = (d', true).
Proof.
  intros Hparse Hm Ht.
  rewrite (getResponse_post_files d data r f Hparse Hm Ht).
  destruct (saveFile d f (body r)) as [d1 [|]]; cbn [fst snd].
  - now intros [= ->].
  - intros H. exfalso. injection H as H _. vm_compute in H. discriminate H.
Qed.

(** The round trip on parsed requests. Let a POST request on a file name be
    parsed with body [B] and be answered 201 Created. Then a GET request
    parsed with the same name is answered 200 with the body [B],
    Content-Type application/octet-stream, and Content-Length the number of
    octets of the UTF-8 encoding of [B]. *)
Lemma file_roundtrip_parsed (d d' : disk) (postData getData : Buffer)
    (post get : HttpRequest) (f B : JSString) :
  parseRequestData postData = Normal post ->
  httpMethod post = Some HTTP_METHOD.POST ->
  target post = Some (PATH.FILES ++ f) ->
  body post = Some B ->
  getResponse d postData = Normal (serialize CREATED [] [], d') ->
  parseRequestData getData = Normal get ->
  httpMethod get = Some HTTP_METHOD.GET ->
  target get = Some (PATH.FILES ++ f) ->
  getResponse d' getData =
    Normal (serialize OK
              (content_headers CONTENT_TYPE.FILE (Buffer_byteLength B)) B, d').
Proof.
  intros Hpost Hpm Hpt HB Hcreated Hget Hgm Hgt.
  pose proof (created_saved d d' postData post f Hpost Hpm Hpt Hcreated) as Hsave.
  rewrite HB in Hsave. apply getFile_after_saveFile in Hsave.
  rewrite (getResponse_get_files d' getData get f Hget Hgm Hgt), Hsave.
  rewrite (Buffer_toString_utf8_encode B)
    by exact (parse_body_scalar postData post B Hpost HB).
  reflexivity.
Qed.

End FileRoundTrip.

(** ** Percent-decoding undoes percent-encoding *)

Lemma hex_value_hex_digit (d : N) : d < 16 -> hex_value (hex_digit d) = Some d.
Proof.
  intros Hd. unfold hex_value, hex_digit, in_range.
  repeat decide_test; f_equal; lia.
Qed.

Lemma ParseHexOctet_escape (b : N) :
  b < 256 -> ParseHexOctet (hex_digit (b / 16)) (hex_digit (b mod 16)) = Some b.
Proof.
  intros Hb. unfold ParseHexOctet.
  rewrite !hex_value_hex_digit by lia. f_equal. lia.
Qed.

Lemma unreserved_not_percent (c : N) :
  is_unreserved c = true -> (c =? PERCENT) = false.
Proof.
  intros H. destruct (c =? PERCENT) eqn:E; [|reflexivity].
  apply N.eqb_eq in E. subst c. discriminate H.
Qed.

Lemma leading_ones_ascii (c : N) : c < 0x80 -> leading_ones c = O.
Proof. intros H. unfold leading_ones. now rewrite (proj2 (N.ltb_lt _ _) H). Qed.

Lemma Decode_escape (pending : nat) (octets : list N) (b : N) (rest : JSString) :
  b < 256 ->
  Decode pending octets (escape_octet b ++ rest) =
    match pending with
    | O =>
        match leading_ones b with
        | O => R <- Decode O [] rest ;; Normal (b :: R)
        | S O => Throw URIError
        | S (S k) =>
            if Nat.ltb 2 k then Throw URIError else Decode (S k) [b] rest
        end
    | S O =>
        match utf8_value (octets ++ [b]) with
        | None => Throw URIError
        | Some V => R <- Decode O [] rest ;; Normal (V :: R)
        end
    | S (S p) => Decode (S p) (octets ++ [b]) rest
    end.
Proof.
  intros Hb. unfold escape_octet. cbn [app Decode].
  rewrite N.eqb_refl, ParseHexOctet_escape by assumption. reflexivity.
Qed.

Lemma Decode_enc_cp_ascii (c : N) (rest : JSString) :
  c < 0x80 ->
  Decode O [] (enc_cp c ++ rest) = (R <- Decode O [] rest ;; Normal (c :: R)).
Proof.
  intros Hc. unfold enc_cp. destruct (is_unreserved c) eqn:Hu.
  - cbn [app Decode]. now rewrite (unreserved_not_percent c Hu).
  - unfold utf8_encode_cp. rewrite (proj2 (N.ltb_lt _ _) Hc).
    cbn [flat_map]. rewrite app_nil_r, Decode_escape by lia.
    now rewrite leading_ones_ascii.
Qed.

Lemma decodeURIComponent_enc_ascii (s : JSString) :
  Forall (fun c => c < 0x80) s -> decodeURIComponent (enc s) = Normal s.
Proof.
  unfold decodeURIComponent, enc.
  induction 1 as [|c s Hc _ IH]; [reflexivity|].
  cbn [flat_map]. now rewrite Decode_enc_cp_ascii, IH.
Qed.

Lemma utf8_encode_ascii (s : JSString) :
  Forall (fun c => c < 0x80) s -> utf8_encode s = s.
Proof.
  unfold utf8_encode. induction 1 as [|c s Hc _ IH]; [reflexivity|].
  cbn [flat_map]. unfold utf8_encode_cp at 1.
  rewrite (proj2 (N.ltb_lt _ _) Hc). cbn [app]. now rewrite IH.
Qed.

Lemma printable_is_ascii (s : JSString) :
  Forall printable_ascii s -> Forall (fun c => c < 0x80) s.
Proof. apply Forall_impl. unfold printable_ascii. intros c H. lia. Qed.

Lemma octets_eqb_refl (a : list N) : octets_eqb a a = true.
Proof. unfold octets_eqb. now destruct (list_eq_dec N.eq_dec a a). Qed.

Lemma utf8_value_encode_cp (c : N) :
  is_scalar c = true -> utf8_value (utf8_encode_cp c) = Some c.
Proof.
  intros Hc. unfold utf8_value.
  rewrite <- (app_nil_r (utf8_encode_cp c)) at 1.
  rewrite Buffer_toString_encode_cp by assumption.
  cbn [Buffer_toString]. now rewrite octets_eqb_refl.
Qed.

(** The escapes of a sequence of two, three or four octets are gathered
    and handed to [utf8_value] together. *)
Lemma Decode_escapes (b0 : N) (more : list N) (rest : JSString) :
  b0 < 256 -> Forall (fun b => b < 256) more ->
  leading_ones b0 = S (List.length more) ->
  (1 <= List.length more <= 3)%nat ->
  Decode O [] (flat_map escape_octet (b0 :: more) ++ rest) =
    match utf8_value (b0 :: more) with
    | None => Throw URIError
    | Some V => R <- Decode O [] rest ;; Normal (V :: R)
    end.
Proof.
  intros H0 Hmore Hlead Hlen.
  destruct more as [|b1 [|b2 [|b3 [|b4 more]]]]; cbn [List.length] in *;
    try lia;
    repeat match goal with
    | H : Forall _ (_ :: _) |- _ => inversion H; subst; clear H
    end;
    cbn [flat_map]; rewrite <- ?app_assoc;
    rewrite Decode_escape by assumption; rewrite Hlead; cbn [Nat.ltb Nat.leb];
    repeat (rewrite Decode_escape by assumption; cbn [app]);
    rewrite ?app_nil_r; reflexivity.
Qed.

Lemma utf8_encode_cp_shape (c : N) :
  is_scalar c = true -> 0x80 <= c ->
  exists b0 more,
    utf8_encode_cp c = b0 :: more
    /\ b0 < 256 /\ Forall (fun b => b < 256) more
    /\ leading_ones b0 = S (List.length more)
    /\ (1 <= List.length more <= 3)%nat.
Proof.
  intros Hc Hge. unfold utf8_encode_cp. rewrite Hc.
  apply is_scalar_iff in Hc.
  repeat decide_test;
    (eexists; eexists; split; [reflexivity|]);
    (split; [lia|]); (split; [repeat constructor; lia|]);
    (split; [|cbn [List.length]; lia]);
    unfold leading_ones; repeat decide_test; reflexivity.
Qed.

Lemma Decode_enc_cp (c : N) (rest : JSString) :
  is_scalar c = true ->
  Decode O [] (enc_cp c ++ rest) = (R <- Decode O [] rest ;; Normal (c :: R)).
Proof.
  intros Hc. destruct (N.ltb_spec c 0x80) as [Hlt|Hge].
  - now apply Decode_enc_cp_ascii.
  - unfold enc_cp.
    destruct (is_unreserved c) eqn:Hu.
    { exfalso. unfold is_unreserved, in_range in Hu. cbn [existsb] in Hu.
      test_to_prop Hu. lia. }
    destruct (utf8_encode_cp_shape c Hc Hge)
      as (b0 & more & Henc & H0 & Hmore & Hlead & Hlen).
    rewrite Henc, Decode_escapes by assumption.
    now rewrite <- Henc, utf8_value_encode_cp.
Qed.

(** For every well-formed string, decoding its percent-encoding gives the
    string back. *)
Lemma decodeURIComponent_enc (s : JSString) :
  Forall (fun c => is_scalar c = true) s ->
  decodeURIComponent (enc s) = Normal s.
Proof.
  unfold decodeURIComponent, enc.
  induction 1 as [|c s Hc _ IH]; [reflexivity|].
  cbn [flat_map]. now rewrite Decode_enc_cp, IH.
Qed.

(** ** Echo, and the shape of every response *)

Ltac destruct_bind H :=
  match type of H with
  | context [bind ?c _] =>
      let E := fresh "E" in
      destruct c eqn:E; cbn [bind] in H; try discriminate H
  end.

Section Responses.

Context {node : Node}.

Lemma first_match_get_echo (rest : JSString) :
  first_match (Some HTTP_METHOD.GET) (PATH.ECHO ++ rest) = Some EchoRoute.
Proof.
  unfold first_match, route_table. cbn [find route_matches].
  rewrite starts_with_app.
  replace (strict_eq (PATH.ECHO ++ rest) PATH.ROOT) with false;
    [reflexivity|].
  symmetry. apply strict_eq_false. discriminate.
Qed.

Lemma getResponse_get_echo (d : disk) (data : Buffer) (r : HttpRequest)
    (rest : JSString) :
  parseRequestData data = Normal r ->
  httpMethod r = Some HTTP_METHOD.GET ->
  target r = Some (PATH.ECHO ++ rest) ->
  getResponse d data =
    (body <- decodeURIComponent rest ;;
     Normal (serialize OK
               (content_headers CONTENT_TYPE.TEXT (Buffer_byteLength body))
               body, d)).
Proof.
  intros Hparse Hm Ht.
  rewrite (getResponse_parsed d data r Hparse).
  rewrite (dispatch_first_match d r _ Ht), Hm, first_match_get_echo.
  cbn [run_route]. unfold getEchoResponse.
  rewrite Ht. cbn [call_replace bind]. rewrite replace_prefix_app.
  destruct (decodeURIComponent rest) as [body|e]; cbn [bind]; [|reflexivity].
  now rewrite generateResponse_serialize.
Qed.

(** C3, as the code has it. For a parsed GET request whose target is the
    echo prefix followed by [rest]: when [rest] percent-decodes to [body],
    the response is 200 with that body, Content-Type text/plain and
    Content-Length the number of octets of the UTF-8 encoding of [body];
    when the decoding raises an error, so does the response function. In
    particular, when [rest] is the percent-encoding of a printable ASCII
    string [s], the body is [s] and Content-Length is the length of [s],
    which is its number of octets. *)
Theorem echo_response (d : disk) (data : Buffer) (r : HttpRequest)
    (rest : JSString) :
  parseRequestData data = Normal r ->
  httpMethod r = Some HTTP_METHOD.GET ->
  target r = Some (PATH.ECHO ++ rest) ->
  (forall body, decodeURIComponent rest = Normal body ->
     getResponse d data =
       Normal (serialize OK
                 (content_headers CONTENT_TYPE.TEXT (Buffer_byteLength body))
                 body, d))
  /\ (forall e, decodeURIComponent rest = Throw e ->
      getResponse d data = Throw e)
  /\ (forall s, Forall printable_ascii s -> rest = enc s ->
      getResponse d data =
        Normal (serialize OK
                  (content_headers CONTENT_TYPE.TEXT (N.of_nat (List.length s)))
                  s, d)
      /\ Buffer_byteLength s = N.of_nat (List.length s)).
Proof.
  intros Hparse Hm Ht.
  rewrite (getResponse_get_echo d data r rest Hparse Hm Ht).
  repeat split.
  - intros body ->. reflexivity.
  - intros e ->. reflexivity.
  - subst rest. apply printable_is_ascii in H.
    rewrite (decodeURIComponent_enc_ascii s H). cbn [bind].
    unfold Buffer_byteLength. now rewrite (utf8_encode_ascii s H).
  - apply printable_is_ascii in H.
    unfold Buffer_byteLength. now rewrite (utf8_encode_ascii s H).
Qed.

Lemma dispatch_shape (d d' : disk) (r : HttpRequest) (response : JSString) :
  dispatch d r = Normal (response, d') ->
  exists httpStatus headers body,
    response = serialize httpStatus headers body
    /\ (headers = []
        \/ exists contentType n, headers = content_headers contentType n).
Proof.
  intros H.
  assert (Hgen : forall st hs b,
    (hs = None \/ exists ct n, hs = Some (content_headers ct n)) ->
    exists httpStatus headers body,
      generateResponse st hs b = serialize httpStatus headers body
      /\ (headers = []
          \/ exists contentType n, headers = content_headers contentType n)).
  { intros st hs b Hhs. rewrite generateResponse_serialize.
    do 3 eexists. split; [reflexivity|].
    destruct Hhs as [->|(ct & n & ->)]; [now left | right; eauto]. }
  destruct (target r) as [t|] eqn:Ht.
  - rewrite (dispatch_first_match d r t Ht) in H.
    destruct (first_match (httpMethod r) t) as [[]|]; cbn [run_route] in H.
    + injection H as <- _. apply Hgen. now left.
    + destruct_bind H. injection H as <- _.
      unfold getEchoResponse in E. repeat destruct_bind E.
      injection E as <-. apply Hgen. right. do 2 eexists. reflexivity.
    + destruct_bind H. injection H as <- _.
      unfold getUserAgentResponse in E. repeat destruct_bind E.
      injection E as <-. apply Hgen. right. do 2 eexists. reflexivity.
    + destruct_bind H. injection H as <- _.
      unfold getFilesResponse in E. repeat destruct_bind E.
      destruct a1 as [file|]; injection E as <-; apply Hgen;
        [right; do 2 eexists; reflexivity | now left].
    + unfold getSaveFilesResponse in H. destruct_bind H.
      destruct (saveFile d a (body r)) as [d1 [|]];
        cbn [negb] in H; injection H as <- _; apply Hgen; now left.
    + injection H as <- _. apply Hgen. now left.
  - unfold dispatch in H. rewrite Ht in H.
    cbn [strict_eq_opt andb call_match] in H.
    rewrite andb_false_r in H.
    destruct (strict_eq_opt (httpMethod r) HTTP_METHOD.GET);
      cbn [and_then bind] in H; [discriminate H|].
    destruct (strict_eq_opt (httpMethod r) HTTP_METHOD.POST);
      cbn [and_then bind] in H; [discriminate H|].
    injection H as <- _. apply Hgen. now left.
Qed.

End Responses.

(** ** Echo on the wire *)

Lemma Buffer_toString_ascii (bs : Buffer) :
  Forall (fun c => c < 0x80) bs -> Buffer_toString bs = bs.
Proof.
  induction 1 as [|b bs Hb _ IH]; [reflexivity|].
  cbn [Buffer_toString]. now rewrite (proj2 (N.ltb_lt _ _) Hb), IH.
Qed.

Lemma starts_with_other (a c : N) (sep s : JSString) :
  c <> a -> starts_with (a :: sep) (c :: s) = false.
Proof.
  intros H. cbn [starts_with].
  now rewrite (proj2 (N.eqb_neq a c)) by congruence.
Qed.

Lemma split_once_absent (a : N) (sep s : JSString) :
  ~ In a s -> split_once (a :: sep) s = (s, None).
Proof.
  induction s as [|c s IH]; intros Hin; [reflexivity|].
  cbn [split_once]. rewrite starts_with_other.
  - rewrite IH; [reflexivity|]. intros H. apply Hin. now right.
  - intros ->. apply Hin. now left.
Qed.

Lemma split_once_first (a : N) (sep before after : JSString) :
  ~ In a before ->
  split_once (a :: sep) (before ++ a :: sep ++ after) = (before, Some after).
Proof.
  induction before as [|c before IH]; intros Hin.
  - cbn [app split_once].
    change (a :: sep ++ after) with ((a :: sep) ++ after).
    now rewrite starts_with_app, skipn_length_app.
  - cbn [app split_once]. rewrite starts_with_other.
    + rewrite IH; [reflexivity|]. intros H. apply Hin. now right.
    + intros ->. apply Hin. now left.
Qed.

Lemma token_char_not_in (a : N) (l : JSString) :
  Forall token_char l -> a = 32 \/ a = CR -> ~ In a l.
Proof.
  intros Hl Ha Hin. rewrite Forall_forall in Hl.
  destruct (Hl a Hin) as (_ & H32 & HCR). destruct Ha; contradiction.
Qed.

Lemma token_char_ascii (l : JSString) :
  Forall token_char l -> Forall (fun c => c < 0x80) l.
Proof. apply Forall_impl. now intros c [H _]. Qed.

(** A request made of a start line of three tokens and nothing else is
    parsed into these three tokens, no header and an empty body. *)
Lemma parse_start_line (m t v : JSString) :
  Forall token_char m -> Forall token_char t -> Forall token_char v ->
  parseRequestData ((m ++ 32 :: t ++ 32 :: v) ++ CRLF ++ CRLF) =
    Normal {| httpMethod := Some m; target := Some t; httpVersion := Some v;
              headers := []; body := Some [] |}.
Proof.
  intros Hm Ht Hv.
  assert (Hweak : forall l, Forall token_char l ->
                            Forall (fun c => c < 0x80 /\ c <> CR) l).
  { intros l. apply Forall_impl. intros c (? & _ & ?). now split. }
  assert (Hsp : 32 < 0x80 /\ 32 <> CR) by (split; [reflexivity | discriminate]).
  assert (Hline : Forall (fun c => c < 0x80 /\ c <> CR)
                         (m ++ 32 :: t ++ 32 :: v)).
  { apply Forall_app; split; [now apply Hweak|].
    apply Forall_cons; [exact Hsp|].
    apply Forall_app; split; [now apply Hweak|].
    apply Forall_cons; [exact Hsp | now apply Hweak]. }
  assert (HnoCR : ~ In CR (m ++ 32 :: t ++ 32 :: v)).
  { intros Hin. rewrite Forall_forall in Hline.
    now destruct (Hline CR Hin) as [_ H]. }
  assert (Hparts : split (CRLF ++ CRLF)
                          ((m ++ 32 :: t ++ 32 :: v) ++ CRLF ++ CRLF)
                   = [m ++ 32 :: t ++ 32 :: v; []]).
  { rewrite split_once_spec by discriminate.
    change (CRLF ++ CRLF) with (CR :: [LF; CR; LF] ++ []) at 2.
    change (CRLF ++ CRLF) with (CR :: [LF; CR; LF]).
    now rewrite split_once_first. }
  assert (Hlines : split CRLF (m ++ 32 :: t ++ 32 :: v)
                   = [m ++ 32 :: t ++ 32 :: v]).
  { rewrite split_once_spec by discriminate.
    unfold CRLF. now rewrite split_once_absent. }
  assert (Htokens : split (str " ") (m ++ 32 :: t ++ 32 :: v) = [m; t; v]).
  { change (str " ") with [32].
    rewrite split_once_spec by discriminate.
    change (32 :: t ++ 32 :: v) with (32 :: [] ++ (t ++ 32 :: v)).
    rewrite split_once_first by (apply token_char_not_in; auto).
    rewrite split_once_spec by discriminate.
    change (32 :: v) with (32 :: [] ++ v).
    rewrite split_once_first by (apply token_char_not_in; auto).
    rewrite split_once_spec by discriminate.
    now rewrite split_once_absent by (apply token_char_not_in; auto). }
  unfold parseRequestData.
  rewrite Buffer_toString_ascii.
  2:{ apply Forall_app; split.
      - eapply Forall_impl; [|exact Hline]. now intros c [H _].
      - repeat constructor. }
  rewrite Hparts. cbn [nth_error call_split bind].
  rewrite Hlines. cbn [nth_error call_split bind].
  rewrite Htokens. reflexivity.
Qed.

Lemma hex_digit_token (d : N) : d < 16 -> token_char (hex_digit d).
Proof.
  intros Hd. unfold hex_digit, token_char, CR. decide_test; lia.
Qed.

Lemma enc_token_chars (s : JSString) :
  Forall (fun c => c < 0x80) s -> Forall token_char (enc s).
Proof.
  unfold enc. induction 1 as [|c s Hc _ IH]; [constructor|].
  cbn [flat_map]. apply Forall_app. split; [|exact IH].
  unfold enc_cp. destruct (is_unreserved c) eqn:Hu.
  - constructor; [|constructor].
    unfold is_unreserved, in_range in Hu. cbn [existsb] in Hu.
    test_to_prop Hu. unfold token_char, CR. lia.
  - unfold utf8_encode_cp. rewrite (proj2 (N.ltb_lt _ _) Hc).
    cbn [flat_map escape_octet app].
    repeat constructor; try (apply hex_digit_token; lia); discriminate.
Qed.

(** The echo round trip on the wire: for a printable ASCII string [s], the
    request line GET, the echo prefix followed by the percent-encoding of
    [s], and the version, closed by a blank line, is answered 200 with the
    body [s] and its length as Content-Length. *)
Lemma echo_roundtrip_on_the_wire {node : Node} (d : disk) (s : JSString) :
  Forall printable_ascii s ->
  getResponse d
    ((str "GET" ++ 32 :: (PATH.ECHO ++ enc s) ++ 32 :: str "HTTP/1.1")
     ++ CRLF ++ CRLF)
  = Normal (serialize OK
              (content_headers CONTENT_TYPE.TEXT (N.of_nat (List.length s)))
              s, d).
Proof.
  intros Hs. apply printable_is_ascii in Hs.
  assert (Hconst : forall l, Forall (fun c => c < 0x80 /\ c <> 32 /\ c <> CR) l ->
                             Forall token_char l) by (intros l H; exact H).
  assert (Hparse := parse_start_line (str "GET") (PATH.ECHO ++ enc s)
                      (str "HTTP/1.1")).
  rewrite (getResponse_get_echo d _ _ (enc s) (Hparse
             ltac:(apply Hconst; vm_compute; repeat constructor; discriminate)
             ltac:(apply Forall_app; split;
                   [apply Hconst; vm_compute; repeat constructor; discriminate
                   | now apply enc_token_chars])
             ltac:(apply Hconst; vm_compute; repeat constructor; discriminate))
           eq_refl eq_refl).
  rewrite (decodeURIComponent_enc_ascii s Hs). cbn [bind].
  unfold Buffer_byteLength. now rewrite (utf8_encode_ascii s Hs).
Qed.

(** ** The claims on the in-memory disk *)

Lemma MemDisk_read_after_write (d : MemDisk.t) (path : JSString)
    (content : Buffer) (d' : MemDisk.t) :
  MemDisk.write d path content = (d', true) ->
  MemDisk.read d' path = Some content.
Proof.
  unfold MemDisk.write. intros [= <-].
  cbn [MemDisk.read]. now rewrite strict_eq_refl.
Qed.

(** A GET on the user-agent path with a Host header only. *)
Lemma user_agent_absent_throws_witness :
  let data := bytes "GET /user-agent HTTP/1.1" ++ CRLF
              ++ bytes "Host: localhost" ++ CRLF ++ CRLF in
  let r := {| httpMethod := Some (str "GET");
              target := Some (str "/user-agent");
              httpVersion := Some (str "HTTP/1.1");
              headers := [[str "Host"; str "localhost"]];
              body := Some [] |} in
  parseRequestData data = Normal r
  /\ httpMethod r = Some HTTP_METHOD.GET
  /\ target r = Some PATH.USER_AGENT
  /\ (forall h, In h (headers r) -> nth_error h 0 <> Some HEADER.USER_AGENT)
  /\ MemDisk.serve [] data = Throw TypeError.
Proof.
  intros data r.
  assert (Hparse : parseRequestData data = Normal r) by (vm_compute; reflexivity).
  assert (Hnone : forall h, In h (headers r) ->
                            nth_error h 0 <> Some HEADER.USER_AGENT).
  { intros h [<-|[]]. vm_compute. discriminate. }
  split; [exact Hparse|]. split; [reflexivity|]. split; [reflexivity|].
  split; [exact Hnone|].
  exact (user_agent_absent_throws (node := MemDisk.node) [] data r Hparse eq_refl eq_refl Hnone).
Defined.

(** The same on the wire with no header at all. *)
Example user_agent_no_header :
  MemDisk.serve [] (bytes "GET /user-agent HTTP/1.1" ++ CRLF ++ CRLF)
  = Throw TypeError.
Proof. vm_compute. reflexivity. Qed.

(** C3 as stated fails: a GET on an echo target whose remainder ends in a
    percent sign gets no response at all, the decoding raises a
    URIError. *)
Lemma echo_bad_escape_no_response :
  let data := bytes "GET /echo/100% HTTP/1.1" ++ CRLF ++ CRLF in
  (exists r, parseRequestData data = Normal r
     /\ httpMethod r = Some HTTP_METHOD.GET
     /\ target r = Some (PATH.ECHO ++ str "100%"))
  /\ MemDisk.serve [] data = Throw URIError.
Proof.
  split; [|vm_compute; reflexivity].
  eexists. split; [vm_compute; reflexivity|].
  split; vm_compute; reflexivity.
Qed.

Lemma echo_response_witness :
  let data := bytes "GET /echo/a%20b HTTP/1.1" ++ CRLF ++ CRLF in
  let r := {| httpMethod := Some (str "GET");
              target := Some (str "/echo/a%20b");
              httpVersion := Some (str "HTTP/1.1");
              headers := [];
              body := Some [] |} in
  parseRequestData data = Normal r
  /\ httpMethod r = Some HTTP_METHOD.GET
  /\ target r = Some (PATH.ECHO ++ enc (str "a b"))
  /\ Forall printable_ascii (str "a b")
  /\ MemDisk.serve [] data =
       Normal (serialize OK (content_headers CONTENT_TYPE.TEXT 3) (str "a b"), []).
Proof.
  intros data r.
  assert (Hparse : parseRequestData data = Normal r) by (vm_compute; reflexivity).
  assert (Hm : httpMethod r = Some HTTP_METHOD.GET) by reflexivity.
  assert (Ht : target r = Some (PATH.ECHO ++ enc (str "a b")))
    by (vm_compute; reflexivity).
  assert (Hs : Forall printable_ascii (str "a b")).
  { change (str "a b") with [97; 32; 98].
    repeat (apply Forall_cons; [unfold printable_ascii; lia|]).
    apply Forall_nil. }
  split; [exact Hparse|]. split; [exact Hm|]. split; [exact Ht|].
  split; [exact Hs|].
  destruct (echo_response (node := MemDisk.node) [] data r (enc (str "a b"))
              Hparse Hm Ht) as (_ & _ & Henc).
  exact (proj1 (Henc (str "a b") Hs eq_refl)).
Defined.

(** C4 as stated fails: the request made of the single token GET
    has no target, so none of the five routes matches it, and it gets a
    TypeError instead of 404. *)
Lemma routing_no_target_throws :
  let data := bytes "GET" in
  (exists r, parseRequestData data = Normal r
     /\ forall rt, request_matches r rt = false)
  /\ MemDisk.serve [] data = Throw TypeError.
Proof.
  split; [|vm_compute; reflexivity].
  eexists; split; [vm_compute; reflexivity|].
  intros rt. reflexivity.
Qed.

Lemma routing_priority_witness :
  let data := bytes "DELETE /files/f HTTP/1.1" ++ CRLF ++ CRLF in
  let r := {| httpMethod := Some (str "DELETE");
              target := Some (str "/files/f");
              httpVersion := Some (str "HTTP/1.1");
              headers := [];
              body := Some [] |} in
  parseRequestData data = Normal r
  /\ target r = Some (str "/files/f")
  /\ (forall rt, route_matches (httpMethod r) (str "/files/f") rt = false)
  /\ MemDisk.serve [] data = Normal (serialize NOT_FOUND [] [], []).
Proof.
  intros data r.
  assert (Hparse : parseRequestData data = Normal r) by (vm_compute; reflexivity).
  assert (Hnone : forall rt, route_matches (httpMethod r) (str "/files/f") rt = false)
    by (intros []; vm_compute; reflexivity).
  split; [exact Hparse|]. split; [reflexivity|]. split; [exact Hnone|].
  destruct (routing_priority (node := MemDisk.node) [] data r Hparse)
    as (Hroute & _ & _).
  exact (proj2 (Hroute (str "/files/f") eq_refl) Hnone).
Defined.

Lemma file_routes_status_witness :
  let getData := bytes "GET /files/missing HTTP/1.1" ++ CRLF ++ CRLF in
  let get := {| httpMethod := Some (str "GET");
                target := Some (str "/files/missing");
                httpVersion := Some (str "HTTP/1.1");
                headers := [];
                body := Some [] |} in
  let postData := bytes "POST /files/f HTTP/1.1" ++ CRLF ++ CRLF ++ bytes "hello" in
  let post := {| httpMethod := Some (str "POST");
                 target := Some (str "/files/f");
                 httpVersion := Some (str "HTTP/1.1");
                 headers := [];
                 body := Some (str "hello") |} in
  (parseRequestData getData = Normal get
   /\ MemDisk.serve [] getData = Normal (serialize NOT_FOUND [] [], []))
  /\ (parseRequestData postData = Normal post
      /\ MemDisk.serve_readonly [] postData
         = Normal (serialize INTERNAL_SERVER_ERROR [] [], [])
      /\ MemDisk.serve [] postData
         = Normal (serialize CREATED [] [], [(str "/tmp/f", bytes "hello")])).
Proof.
  intros getData get postData post.
  assert (Hget : parseRequestData getData = Normal get)
    by (vm_compute; reflexivity).
  assert (Hpost : parseRequestData postData = Normal post)
    by (vm_compute; reflexivity).
  split; [split; [exact Hget|] | split; [exact Hpost | split]].
  - destruct (file_routes_status (node := MemDisk.node) [] getData get (str "missing")
                Hget eq_refl) as (H404 & _ & _).
    exact (H404 eq_refl eq_refl).
  - destruct (file_routes_status (node := MemDisk.readonly) [] postData post (str "f")
                Hpost eq_refl) as (_ & H500 & _).
    exact (H500 eq_refl [] eq_refl).
  - destruct (file_routes_status (node := MemDisk.node) [] postData post (str "f")
                Hpost eq_refl) as (_ & _ & H201).
    exact (H201 eq_refl _ eq_refl).
Defined.


(** * Further properties *)

(** ** Occurrences of a separator *)

Lemma starts_with_app_r (p a b : JSString) :
  starts_with p a = true -> starts_with p (a ++ b) = true.
Proof.
  revert a; induction p as [|x p IH]; intros [|y a] H; cbn in *;
    try reflexivity; try discriminate.
  apply andb_true_iff in H as [Hxy H]. now rewrite Hxy, IH.
Qed.

Lemma starts_with_nil (sep : JSString) : sep <> [] -> starts_with sep [] = false.
Proof. now destruct sep. Qed.

Lemma occurs_false_split_once (sep s : JSString) :
  occurs sep s = false -> split_once sep s = (s, None).
Proof.
  induction s as [|c s IH]; intros H; [reflexivity|].
  cbn [occurs] in H. apply orb_false_iff in H as [Hhere Hlater].
  cbn [split_once]. now rewrite Hhere, IH.
Qed.

Lemma split_once_None_occurs (sep s : JSString) :
  sep <> [] -> snd (split_once sep s) = None -> occurs sep s = false.
Proof.
  intros Hsep. induction s as [|c s IH]; cbn [split_once occurs].
  - intros _. now apply starts_with_nil.
  - destruct (starts_with sep (c :: s)); [discriminate|].
    destruct (split_once sep s) as [before after]. cbn [snd] in *. auto.
Qed.

Lemma split_once_prefix (sep s : JSString) :
  exists rest, s = fst (split_once sep s) ++ rest.
Proof.
  induction s as [|c s [rest IH]]; cbn [split_once].
  - now exists [].
  - destruct (starts_with sep (c :: s)); [now exists (c :: s)|].
    destruct (split_once sep s) as [before after]. cbn [fst] in *.
    exists rest. cbn [app]. now f_equal.
Qed.

(** The text before the first occurrence holds no occurrence. *)
Lemma split_once_before_clean (sep s : JSString) :
  sep <> [] -> occurs sep (fst (split_once sep s)) = false.
Proof.
  intros Hsep. induction s as [|c s IH]; cbn [split_once].
  - now apply starts_with_nil.
  - destruct (starts_with sep (c :: s)) eqn:Hhere.
    + now apply starts_with_nil.
    + destruct (split_once_prefix sep s) as [rest Hrest].
      destruct (split_once sep s) as [before after]. cbn [fst] in *.
      cbn [occurs]. rewrite IH, orb_false_r.
      destruct (starts_with sep (c :: before)) eqn:Hb; [|reflexivity].
      apply (starts_with_app_r _ _ rest) in Hb. cbn [app] in Hb.
      rewrite <- Hrest in Hb. congruence.
Qed.

Lemma split_once_after_shorter (sep s after : JSString) :
  sep <> [] -> snd (split_once sep s) = Some after ->
  (List.length after < List.length s)%nat.
Proof.
  intros Hsep. induction s as [|c s IH]; cbn [split_once]; [discriminate|].
  destruct (starts_with sep (c :: s)).
  - cbn [snd]. intros [= <-]. destruct sep as [|x sep]; [congruence|].
    cbn [List.length skipn]. pose proof (length_skipn (List.length sep) s). lia.
  - destruct (split_once sep s) as [before a]. cbn [snd] in *.
    intros H. specialize (IH H). cbn [List.length]. lia.
Qed.

(** No piece [split] returns holds the separator. *)
Lemma split_pieces_clean (sep s : JSString) :
  sep <> [] -> Forall (fun piece => occurs sep piece = false) (split sep s).
Proof.
  intros Hsep.
  remember (List.length s) as n eqn:Hn.
  revert s Hn. induction n as [n IH] using lt_wf_ind. intros s Hn.
  rewrite split_once_spec by assumption.
  pose proof (split_once_before_clean sep s Hsep) as Hclean.
  pose proof (split_once_after_shorter sep s) as Hshort.
  destruct (split_once sep s) as [before [after|]]; cbn [fst snd] in *.
  - constructor; [assumption|].
    apply (IH (List.length after)); [|reflexivity].
    subst n. now apply Hshort.
  - now constructor.
Qed.

(** ** The parser on a request of the wire protocol *)

Lemma split_once_walk (a : N) (sep pre s : JSString) :
  ~ In a pre ->
  split_once (a :: sep) (pre ++ s) =
    (pre ++ fst (split_once (a :: sep) s), snd (split_once (a :: sep) s)).
Proof.
  induction pre as [|c pre IH]; intros Hin; cbn [app].
  - now destruct (split_once (a :: sep) s).
  - cbn [split_once]. rewrite starts_with_other.
    + rewrite IH; [reflexivity|]. intros H. apply Hin. now right.
    + intros ->. apply Hin. now left.
Qed.

(** The first blank line of a text made of lines, a blank line and a body
    is the one that closes the lines. *)
Lemma split_once_blank_line (pre : JSString) (ls : list JSString) (body : JSString) :
  ~ In CR pre ->
  Forall (fun l => l <> [] /\ ~ In CR l) ls ->
  split_once (CRLF ++ CRLF)
    (pre ++ concat (map (fun l => CRLF ++ l) ls) ++ (CRLF ++ CRLF) ++ body)
  = (pre ++ concat (map (fun l => CRLF ++ l) ls), Some body).
Proof.
  change (CRLF ++ CRLF) with (CR :: [LF; CR; LF]).
  intros Hpre Hls. revert pre Hpre.
  induction Hls as [|l ls [Hne Hl] _ IH]; intros pre Hpre.
  - cbn [map concat app]. rewrite app_nil_r.
    exact (split_once_first CR [LF; CR; LF] pre body Hpre).
  - cbn [map concat].
    set (rest := concat (map (fun l0 => CRLF ++ l0) ls)) in *.
    replace (pre ++ ((CRLF ++ l) ++ rest) ++ (CR :: [LF; CR; LF]) ++ body)
      with (pre ++ CRLF ++ (l ++ rest ++ (CR :: [LF; CR; LF]) ++ body))
      by (now rewrite <- !app_assoc).
    replace (pre ++ (CRLF ++ l) ++ rest) with (pre ++ CRLF ++ (l ++ rest))
      by (now rewrite <- !app_assoc).
    rewrite split_once_walk by assumption.
    destruct l as [|c l]; [congruence|].
    specialize (IH (c :: l) Hl).
    assert (Hc : (CR =? c) = false)
      by (apply N.eqb_neq; intros <-; apply Hl; now left).
    set (text := (c :: l) ++ rest ++ (CR :: [LF; CR; LF]) ++ body) in *.
    assert (Hstep :
      split_once (CR :: [LF; CR; LF]) (CRLF ++ text)
      = (CRLF ++ fst (split_once (CR :: [LF; CR; LF]) text),
         snd (split_once (CR :: [LF; CR; LF]) text))).
    { unfold CRLF. cbn [app]. subst text. cbn [app].
      cbn [split_once starts_with]. rewrite Hc.
      change (CR =? CR) with true. change (LF =? LF) with true.
      change (CR =? LF) with false. cbn [andb].
      now destruct (split_once _ (l ++ _)). }
    rewrite Hstep, IH. reflexivity.
Qed.

Lemma split_lines (pre : JSString) (ls : list JSString) :
  ~ In CR pre -> Forall (fun l => l <> [] /\ ~ In CR l) ls ->
  split CRLF (pre ++ concat (map (fun l => CRLF ++ l) ls)) = pre :: ls.
Proof.
  intros Hpre Hls. revert pre Hpre.
  induction Hls as [|l ls [_ Hl] _ IH]; intros pre Hpre.
  - cbn [map concat]. rewrite app_nil_r, split_once_spec by discriminate.
    unfold CRLF. now rewrite split_once_absent.
  - cbn [map concat]. rewrite split_once_spec by discriminate.
    rewrite <- app_assoc. unfold CRLF at 1 2.
    change ([CR; LF] ++ l ++ concat (map (fun l0 => CRLF ++ l0) ls))
      with (CR :: [LF] ++ (l ++ concat (map (fun l0 => CRLF ++ l0) ls))).
    rewrite split_once_first by assumption.
    now rewrite IH.
Qed.

Lemma split_tokens (m t v : JSString) :
  ~ In 32 m -> ~ In 32 t -> ~ In 32 v ->
  split (str " ") (m ++ 32 :: t ++ 32 :: v) = [m; t; v].
Proof.
  intros Hm Ht Hv. change (str " ") with [32].
  rewrite split_once_spec by discriminate.
  change (32 :: t ++ 32 :: v) with (32 :: [] ++ (t ++ 32 :: v)).
  rewrite split_once_first by assumption.
  rewrite split_once_spec by discriminate.
  change (32 :: v) with (32 :: [] ++ v).
  rewrite split_once_first by assumption.
  rewrite split_once_spec by discriminate.
  now rewrite split_once_absent.
Qed.

Lemma split_header (h : JSString * JSString) :
  header_ok h -> split (str ": ") (header_line h) = header_entry h.
Proof.
  intros (_ & Hcolon & _ & Hvalue). unfold header_line, header_entry.
  rewrite split_once_spec by discriminate.
  change (str ": ") with (COLON :: [32]) at 1.
  change (str ": " ++ snd h) with (COLON :: [32] ++ snd h).
  rewrite split_once_first by assumption.
  rewrite split_once_spec by discriminate.
  now rewrite occurs_false_split_once.
Qed.

Lemma line_char_no_CR (l : JSString) : Forall line_char l -> ~ In CR l.
Proof.
  intros H Hin. rewrite Forall_forall in H. now destruct (H CR Hin).
Qed.

Lemma word_char_line (l : JSString) : Forall word_char l -> Forall line_char l.
Proof. apply Forall_impl. now intros c [H _]. Qed.

Lemma word_char_no_space (l : JSString) : Forall word_char l -> ~ In 32 l.
Proof.
  intros H Hin. rewrite Forall_forall in H. now destruct (H 32 Hin).
Qed.

Lemma header_line_ok (h : JSString * JSString) :
  header_ok h -> header_line h <> [] /\ Forall line_char (header_line h).
Proof.
  intros (Hname & _ & Hvalue & _). unfold header_line. split.
  - destruct (fst h); discriminate.
  - apply Forall_app; split; [assumption|].
    apply Forall_app; split; [|assumption].
    repeat constructor; discriminate.
Qed.

(** A text of the wire protocol is parsed into its parts. *)
Lemma parse_request_text (data : Buffer) (m t v : JSString)
    (hs : list (JSString * JSString)) (body : JSString) :
  Buffer_toString data = request_text m t v hs body ->
  Forall word_char m -> Forall word_char t -> Forall word_char v ->
  Forall header_ok hs ->
  occurs (CRLF ++ CRLF) body = false ->
  parseRequestData data =
    Normal {| httpMethod := Some m; target := Some t; httpVersion := Some v;
              headers := map header_entry hs; body := Some body |}.
Proof.
  intros Htext Hm Ht Hv Hhs Hbody.
  set (startLine := m ++ 32 :: t ++ 32 :: v).
  assert (Hstart : ~ In CR startLine).
  { apply line_char_no_CR. subst startLine.
    apply Forall_app; split; [now apply word_char_line|].
    constructor; [split; [reflexivity | discriminate]|].
    apply Forall_app; split; [now apply word_char_line|].
    constructor; [split; [reflexivity | discriminate]|].
    now apply word_char_line. }
  assert (Hlines : Forall (fun l => l <> [] /\ ~ In CR l) (map header_line hs)).
  { apply Forall_map. eapply Forall_impl; [|exact Hhs].
    intros h Hh. destruct (header_line_ok h Hh) as [Hne Hl].
    split; [assumption | now apply line_char_no_CR]. }
  assert (Hmap : map (fun h => CRLF ++ header_line h) hs
                 = map (fun l => CRLF ++ l) (map header_line hs))
    by now rewrite map_map.
  unfold parseRequestData. rewrite Htext. unfold request_text.
  fold startLine. rewrite Hmap.
  rewrite (split_once_spec (CRLF ++ CRLF)) by discriminate.
  rewrite split_once_blank_line by assumption.
  rewrite (split_once_spec (CRLF ++ CRLF)) by discriminate.
  rewrite occurs_false_split_once by assumption.
  cbn [nth_error call_split bind].
  rewrite split_lines by assumption.
  cbn [nth_error call_split bind tl].
  subst startLine.
  rewrite split_tokens by now apply word_char_no_space.
  cbn [nth_error]. rewrite map_map.
  do 2 f_equal. apply map_ext_in. intros h Hin.
  apply split_header. rewrite Forall_forall in Hhs. now apply Hhs.
Qed.

Lemma line_char_scalar (l : JSString) :
  Forall line_char l -> Forall (fun c => is_scalar c = true) l.
Proof. apply Forall_impl. now intros c [H _]. Qed.

Lemma request_text_scalar (m t v : JSString) (hs : list (JSString * JSString))
    (body : JSString) :
  Forall word_char m -> Forall word_char t -> Forall word_char v ->
  Forall header_ok hs ->
  Forall (fun c => is_scalar c = true) body ->
  Forall (fun c => is_scalar c = true) (request_text m t v hs body).
Proof.
  intros Hm Ht Hv Hhs Hbody. unfold request_text.
  assert (Hw : forall l, Forall word_char l ->
                         Forall (fun c => is_scalar c = true) l)
    by (intros l H; now apply line_char_scalar, word_char_line).
  apply Forall_app; split; [|apply Forall_app; split;
                              [|apply Forall_app; split]].
  - apply Forall_app; split; [now apply Hw|].
    constructor; [reflexivity|].
    apply Forall_app; split; [now apply Hw|].
    constructor; [reflexivity | now apply Hw].
  - induction Hhs as [|h hs Hh _ IH]; [constructor|].
    cbn [map concat]. apply Forall_app; split; [|exact IH].
    apply Forall_app; split; [repeat constructor|].
    apply line_char_scalar. now apply header_line_ok.
  - repeat constructor.
  - exact Hbody.
Qed.

(** X1. The parser recovers a well-formed request sent as UTF-8: from the
    octets of a start line of three tokens, header lines of the form name,
    colon, space, value, a blank line and a body without blank line, it
    returns the three tokens, one entry of name and value per header in
    order, and the body. *)
Theorem parse_wellformed_request (m t v : JSString)
    (hs : list (JSString * JSString)) (body : JSString) :
  Forall word_char m -> Forall word_char t -> Forall word_char v ->
  Forall header_ok hs ->
  Forall (fun c => is_scalar c = true) body ->
  occurs (CRLF ++ CRLF) body = false ->
  parseRequestData (utf8_encode (request_text m t v hs body)) =
    Normal {| httpMethod := Some m; target := Some t; httpVersion := Some v;
              headers := map header_entry hs; body := Some body |}.
Proof.
  intros Hm Ht Hv Hhs Hscalar Hbody.
  apply parse_request_text; try assumption.
  apply Buffer_toString_utf8_encode. now apply request_text_scalar.
Qed.

Lemma parse_wellformed_request_witness :
  let hs := [(str "Host", str "localhost:4221"); (str "Accept", str "*/*")] in
  Forall word_char (str "POST") /\ Forall word_char (str "/files/f")
  /\ Forall word_char (str "HTTP/1.1") /\ Forall header_ok hs
  /\ Forall (fun c => is_scalar c = true) (str "hello")
  /\ occurs (CRLF ++ CRLF) (str "hello") = false
  /\ parseRequestData
       (bytes "POST /files/f HTTP/1.1" ++ CRLF
        ++ bytes "Host: localhost:4221" ++ CRLF
        ++ bytes "Accept: */*" ++ CRLF ++ CRLF ++ bytes "hello")
     = Normal {| httpMethod := Some (str "POST");
                 target := Some (str "/files/f");
                 httpVersion := Some (str "HTTP/1.1");
                 headers := [[str "Host"; str "localhost:4221"];
                             [str "Accept"; str "*/*"]];
                 body := Some (str "hello") |}.
Proof.
  intros hs.
  assert (Hword : forall l,
            forallb (fun c => is_scalar c && negb (c =? CR) && negb (c =? 32)) l = true ->
            Forall word_char l).
  { intros l H. rewrite forallb_forall in H. apply Forall_forall.
    intros c Hc. specialize (H c Hc).
    apply andb_true_iff in H as [H H32]. apply andb_true_iff in H as [Hs HCR].
    apply negb_true_iff, N.eqb_neq in H32, HCR. repeat split; assumption. }
  assert (Hline : forall l,
            forallb (fun c => is_scalar c && negb (c =? CR)) l = true ->
            Forall line_char l).
  { intros l H. rewrite forallb_forall in H. apply Forall_forall.
    intros c Hc. specialize (H c Hc). apply andb_true_iff in H as [Hs HCR].
    apply negb_true_iff, N.eqb_neq in HCR. split; assumption. }
  assert (Hm : Forall word_char (str "POST")) by (apply Hword; reflexivity).
  assert (Ht : Forall word_char (str "/files/f")) by (apply Hword; reflexivity).
  assert (Hv : Forall word_char (str "HTTP/1.1")) by (apply Hword; reflexivity).
  assert (Hhs : Forall header_ok hs).
  { repeat constructor; try (apply Hline; reflexivity);
      cbn; intuition discriminate. }
  assert (Hscalar : Forall (fun c => is_scalar c = true) (str "hello"))
    by (repeat constructor).
  assert (Hbody : occurs (CRLF ++ CRLF) (str "hello") = false) by reflexivity.
  split; [exact Hm|]. split; [exact Ht|]. split; [exact Hv|].
  split; [exact Hhs|]. split; [exact Hscalar|]. split; [exact Hbody|].
  exact (parse_wellformed_request (str "POST") (str "/files/f") (str "HTTP/1.1")
           hs (str "hello") Hm Ht Hv Hhs Hscalar Hbody).
Defined.

(** X2. What the parser returns for any buffer: a method that is always
    defined; tokens of the start line that hold no space; header entries
    that are never empty and whose elements hold no colon-space; a body
    that holds no blank line. *)
Theorem parsed_request_invariants (data : Buffer) (r : HttpRequest) :
  parseRequestData data = Normal r ->
  (exists m, httpMethod r = Some m)
  /\ (forall tok,
        httpMethod r = Some tok \/ target r = Some tok
        \/ httpVersion r = Some tok ->
        occurs (str " ") tok = false)
  /\ Forall (fun entry =>
               entry <> []
               /\ Forall (fun x => occurs (str ": ") x = false) entry)
            (headers r)
  /\ (forall B, body r = Some B -> occurs (CRLF ++ CRLF) B = false).
Proof.
  unfold parseRequestData.
  pose proof (split_pieces_clean (CRLF ++ CRLF) (Buffer_toString data)
                ltac:(discriminate)) as Hparts.
  destruct (split_nonempty (CRLF ++ CRLF) (Buffer_toString data))
    as (head & more & Hsplit).
  rewrite Hsplit in *. cbn [nth_error call_split bind].
  destruct (split_nonempty CRLF head) as (startLine & rawHeaders & ->).
  cbn [nth_error call_split bind tl].
  pose proof (split_pieces_clean (str " ") startLine ltac:(discriminate))
    as Htokens.
  destruct (split_nonempty (str " ") startLine) as (tok0 & toks & Htok).
  rewrite Htok in *. cbn [nth_error bind]. intros [= <-].
  cbn [httpMethod target httpVersion headers body].
  rewrite Forall_forall in Htokens, Hparts.
  split; [eauto|]. split; [|split].
  - intros tok [H|[H|H]]; apply Htokens.
    + injection H as <-. now left.
    + right. exact (nth_error_In toks 0 H).
    + right. exact (nth_error_In toks 1 H).
  - apply Forall_map, Forall_forall. intros header _. split.
    + destruct (split_nonempty (str ": ") header) as (x & xs & ->).
      discriminate.
    + apply split_pieces_clean. discriminate.
  - intros B HB. apply Hparts. right. exact (nth_error_In more 0 HB).
Qed.

Lemma parsed_request_invariants_witness :
  let data := bytes "GET  / HTTP/1.1" ++ CRLF ++ bytes "A: b: c" ++ CRLF
              ++ CRLF ++ bytes "x" ++ CRLF ++ CRLF ++ bytes "y" in
  let r := {| httpMethod := Some (str "GET");
              target := Some [];
              httpVersion := Some (str "/");
              headers := [[str "A"; str "b"; str "c"]];
              body := Some (str "x") |} in
  parseRequestData data = Normal r
  /\ occurs (CRLF ++ CRLF) (str "x") = false.
Proof.
  intros data r.
  assert (Hparse : parseRequestData data = Normal r)
    by (vm_compute; reflexivity).
  split; [exact Hparse|].
  destruct (parsed_request_invariants data r Hparse) as (_ & _ & _ & Hbody).
  exact (Hbody (str "x") eq_refl).
Defined.

(** ** The user-agent route *)

Lemma find_user_agent_first (pre : list (list JSString)) (entry : list JSString)
    (post : list (list JSString)) :
  (forall h, In h pre -> nth_error h 0 <> Some HEADER.USER_AGENT) ->
  nth_error entry 0 = Some HEADER.USER_AGENT ->
  find is_user_agent (pre ++ entry :: post) = Some entry.
Proof.
  intros Hpre Hentry. induction pre as [|h pre IH]; cbn [app find].
  - unfold is_user_agent. rewrite Hentry. cbn [strict_eq_opt].
    now rewrite strict_eq_refl.
  - unfold is_user_agent at 1.
    rewrite (proj2 (strict_eq_opt_false _ _) (Hpre h (or_introl eq_refl))).
    apply IH. intros h' Hin. apply Hpre. now right.
Qed.

Lemma getResponse_get_user_agent {node : Node} (d : disk) (data : Buffer)
    (r : HttpRequest) :
  parseRequestData data = Normal r ->
  httpMethod r = Some HTTP_METHOD.GET ->
  target r = Some PATH.USER_AGENT ->
  getResponse d data =
    (userAgent <- second_or_default (find is_user_agent (headers r)) ;;
     Normal (serialize OK
               (content_headers CONTENT_TYPE.TEXT (Buffer_byteLength userAgent))
               userAgent, d)).
Proof.
  intros Hparse Hm Ht. rewrite (getResponse_parsed d data r Hparse).
  rewrite (dispatch_first_match d r _ Ht), Hm.
  change (first_match (Some HTTP_METHOD.GET) PATH.USER_AGENT)
    with (Some UserAgentRoute).
  cbn [run_route]. unfold getUserAgentResponse.
  destruct (second_or_default (find is_user_agent (headers r))) as [ua|e];
    cbn [bind]; [|reflexivity].
  now rewrite generateResponse_serialize.
Qed.

(** X3. On the user-agent route the first header entry named User-Agent
    decides: the body is its second element, or empty when it has none,
    Content-Length is the number of octets of that body, and entries after
    it, other User-Agent entries included, are not looked at. *)
Theorem user_agent_first_header {node : Node} (d : disk) (data : Buffer)
    (r : HttpRequest) (pre : list (list JSString)) (entry : list JSString)
    (post : list (list JSString)) :
  parseRequestData data = Normal r ->
  httpMethod r = Some HTTP_METHOD.GET ->
  target r = Some PATH.USER_AGENT ->
  headers r = pre ++ entry :: post ->
  (forall h, In h pre -> nth_error h 0 <> Some HEADER.USER_AGENT) ->
  nth_error entry 0 = Some HEADER.USER_AGENT ->
  getResponse d data =
    Normal (serialize OK
              (content_headers CONTENT_TYPE.TEXT
                 (Buffer_byteLength (nth 1 entry [])))
              (nth 1 entry []), d).
Proof.
  intros Hparse Hm Ht Hhs Hpre Hentry.
  rewrite (getResponse_get_user_agent d data r Hparse Hm Ht), Hhs.
  rewrite (find_user_agent_first pre entry post Hpre Hentry).
  destruct entry as [|name [|value more]]; reflexivity.
Qed.

Lemma user_agent_first_header_witness :
  let data := bytes "GET /user-agent HTTP/1.1" ++ CRLF
              ++ bytes "Host: localhost" ++ CRLF
              ++ bytes "User-Agent: first" ++ CRLF
              ++ bytes "User-Agent: second" ++ CRLF ++ CRLF in
  let r := {| httpMethod := Some (str "GET");
              target := Some (str "/user-agent");
              httpVersion := Some (str "HTTP/1.1");
              headers := [[str "Host"; str "localhost"];
                          [str "User-Agent"; str "first"];
                          [str "User-Agent"; str "second"]];
              body := Some [] |} in
  parseRequestData data = Normal r
  /\ MemDisk.serve [] data =
       Normal (serialize OK (content_headers CONTENT_TYPE.TEXT 5) (str "first"), []).
Proof.
  intros data r.
  assert (Hparse : parseRequestData data = Normal r)
    by (vm_compute; reflexivity).
  split; [exact Hparse|].
  refine (user_agent_first_header (node := MemDisk.node) [] data r
            [[str "Host"; str "localhost"]] [str "User-Agent"; str "first"]
            [[str "User-Agent"; str "second"]]
            Hparse eq_refl eq_refl eq_refl _ eq_refl).
  intros h [<-|[]]. vm_compute. discriminate.
Defined.

(** ** The storage directory *)

(** X5. [getDirectoryPath] returns the argument that follows the first
    [--directory]: nothing when no argument is [--directory], and nothing
    either when the first [--directory] is the last argument. *)
Theorem getDirectoryPath_spec (pre rest : list JSString) :
  ~ In (str "--directory") pre ->
  getDirectoryPath pre = None
  /\ getDirectoryPath (pre ++ str "--directory" :: rest) = nth_error rest 0.
Proof.
  induction pre as [|arg pre IH]; intros Hin.
  - split; [reflexivity|]. cbn [app getDirectoryPath].
    now rewrite strict_eq_refl.
  - assert (Harg : strict_eq (str "--directory") arg = false).
    { apply strict_eq_false. intros <-. apply Hin. now left. }
    cbn [app getDirectoryPath]. rewrite Harg.
    apply IH. intros H. apply Hin. now right.
Qed.

Lemma getDirectoryPath_spec_witness :
  ~ In (str "--directory") [str "node"; str "app/main.js"]
  /\ getDirectoryPath [str "node"; str "app/main.js"] = None
  /\ getDirectoryPath [str "node"; str "app/main.js"; str "--directory";
                        str "/tmp"; str "--directory"; str "/srv"]
     = Some (str "/tmp")
  /\ getDirectoryPath [str "node"; str "app/main.js"; str "--directory"] = None.
Proof.
  assert (Hin : ~ In (str "--directory") [str "node"; str "app/main.js"]).
  { intros [H|[H|[]]]; vm_compute in H; discriminate H. }
  split; [exact Hin|]. split; [|split].
  - exact (proj1 (getDirectoryPath_spec _ [] Hin)).
  - exact (proj2 (getDirectoryPath_spec _
                    [str "/tmp"; str "--directory"; str "/srv"] Hin)).
  - exact (proj2 (getDirectoryPath_spec _ [] Hin)).
Defined.

(** X6. Without a storage directory the two file routes fail differently:
    a GET under the files prefix raises the TypeError of [join] and gets no
    response, a POST under the files prefix is answered 500 and leaves the
    disk as it was. *)
Theorem files_without_directory {node : Node} (d : disk) (data : Buffer)
    (r : HttpRequest) (name : JSString) :
  directoryPath = None ->
  parseRequestData data = Normal r ->
  target r = Some (PATH.FILES ++ name) ->
  (httpMethod r = Some HTTP_METHOD.GET -> getResponse d data = Throw TypeError)
  /\ (httpMethod r = Some HTTP_METHOD.POST ->
      getResponse d data = Normal (serialize INTERNAL_SERVER_ERROR [] [], d)).
Proof.
  intros Hdir Hparse Ht. split; intros Hm.
  - rewrite (getResponse_get_files d data r name Hparse Hm Ht).
    unfold getFile. now rewrite Hdir.
  - rewrite (getResponse_post_files d data r name Hparse Hm Ht).
    unfold saveFile. now rewrite Hdir.
Qed.

Lemma files_without_directory_witness :
  let getData := bytes "GET /files/f HTTP/1.1" ++ CRLF ++ CRLF in
  let postData := bytes "POST /files/f HTTP/1.1" ++ CRLF ++ CRLF ++ bytes "hello" in
  directoryPath (node := MemDisk_nodir) = None
  /\ getResponse (node := MemDisk_nodir) [] getData = Throw TypeError
  /\ getResponse (node := MemDisk_nodir) [] postData
     = Normal (serialize INTERNAL_SERVER_ERROR [] [], []).
Proof.
  intros getData postData.
  split; [reflexivity|]. split.
  - refine (proj1 (files_without_directory (node := MemDisk_nodir) []
                     getData _ (str "f") eq_refl _ _) _);
      vm_compute; reflexivity.
  - refine (proj2 (files_without_directory (node := MemDisk_nodir) []
                     postData _ (str "f") eq_refl _ _) _);
      vm_compute; reflexivity.
Defined.

(** X7. A POST under the files prefix whose request holds no blank line has
    an undefined body: nothing is written, the disk is left as it was and
    the answer is 500. *)
Theorem post_without_blank_line {node : Node} (d : disk) (data : Buffer)
    (r : HttpRequest) (name : JSString) :
  parseRequestData data = Normal r ->
  httpMethod r = Some HTTP_METHOD.POST ->
  target r = Some (PATH.FILES ++ name) ->
  occurs (CRLF ++ CRLF) (Buffer_toString data) = false ->
  getResponse d data = Normal (serialize INTERNAL_SERVER_ERROR [] [], d).
Proof.
  intros Hparse Hm Ht Hnone.
  rewrite (getResponse_post_files d data r name Hparse Hm Ht).
  destruct (parse_body_spec data) as (r' & Hparse' & Hbody).
  rewrite Hparse in Hparse'. injection Hparse' as <-.
  rewrite (occurs_false_split_once _ _ Hnone) in Hbody. cbn [snd] in Hbody.
  rewrite Hbody. unfold saveFile.
  now destruct (call_join directoryPath name).
Qed.

Lemma post_without_blank_line_witness :
  let data := bytes "POST /files/f HTTP/1.1" ++ CRLF ++ bytes "hello" in
  occurs (CRLF ++ CRLF) (Buffer_toString data) = false
  /\ MemDisk.serve [] data
     = Normal (serialize INTERNAL_SERVER_ERROR [] [], []).
Proof.
  intros data. split; [reflexivity|].
  refine (post_without_blank_line (node := MemDisk.node) [] data _ (str "f")
            _ _ _ eq_refl); vm_compute; reflexivity.
Defined.

(** ** What a request can do *)

Lemma first_match_Some (m : option JSString) (t : JSString) (rt : Route) :
  first_match m t = Some rt -> route_matches m t rt = true.
Proof. intros H. now apply find_some in H as [_ H]. Qed.

Lemma route_get (m : option JSString) (a : bool) :
  strict_eq_opt m HTTP_METHOD.GET && a = true ->
  m = Some HTTP_METHOD.GET /\ a = true.
Proof.
  intros H. apply andb_true_iff in H as [Hm Ha].
  now apply strict_eq_opt_true in Hm.
Qed.

(** The method and the target a request has when a route matches it. *)
Lemma route_matches_shape (m : option JSString) (t : JSString) (rt : Route) :
  route_matches m t rt = true ->
  match rt with
  | RootRoute => m = Some HTTP_METHOD.GET /\ t = PATH.ROOT
  | EchoRoute =>
      m = Some HTTP_METHOD.GET /\ exists rest, t = PATH.ECHO ++ rest
  | UserAgentRoute => m = Some HTTP_METHOD.GET /\ t = PATH.USER_AGENT
  | FileReadRoute =>
      m = Some HTTP_METHOD.GET /\ exists name, t = PATH.FILES ++ name
  | FileWriteRoute =>
      m = Some HTTP_METHOD.POST /\ exists name, t = PATH.FILES ++ name
  end.
Proof.
  destruct rt; cbn [route_matches]; intros H;
    apply andb_true_iff in H as [Hm Ht];
    apply strict_eq_opt_true in Hm; (split; [exact Hm|]);
    try (now apply strict_eq_true in Ht);
    eexists; now apply starts_with_split.
Qed.

(** X8. Only a POST under the files prefix can change the disk: after any
    answered request the disk is the one before it, unless the request is
    such a POST, and then it is the disk [saveFile] leaves. *)
Theorem disk_changed_only_by_save {node : Node} (d d' : disk) (data : Buffer)
    (r : HttpRequest) (response : JSString) :
  parseRequestData data = Normal r ->
  getResponse d data = Normal (response, d') ->
  d' = d
  \/ (httpMethod r = Some HTTP_METHOD.POST
      /\ exists name, target r = Some (PATH.FILES ++ name)
                      /\ d' = fst (saveFile d name (body r))).
Proof.
  intros Hparse H.
  destruct (target r) as [t|] eqn:Ht.
  - destruct (first_match (httpMethod r) t) as [rt|] eqn:Hfm.
    + pose proof (route_matches_shape _ _ _ (first_match_Some _ _ _ Hfm))
        as Hshape.
      destruct rt.
      * rewrite (getResponse_parsed d data r Hparse),
          (dispatch_first_match d r t Ht), Hfm in H.
        cbn [run_route] in H. injection H as _ <-. now left.
      * rewrite (getResponse_parsed d data r Hparse),
          (dispatch_first_match d r t Ht), Hfm in H.
        cbn [run_route] in H. destruct_bind H. injection H as _ <-. now left.
      * rewrite (getResponse_parsed d data r Hparse),
          (dispatch_first_match d r t Ht), Hfm in H.
        cbn [run_route] in H. destruct_bind H. injection H as _ <-. now left.
      * rewrite (getResponse_parsed d data r Hparse),
          (dispatch_first_match d r t Ht), Hfm in H.
        cbn [run_route] in H. destruct_bind H. injection H as _ <-. now left.
      * destruct Hshape as (Hm & name & ->).
        rewrite (getResponse_post_files d data r name Hparse Hm Ht) in H.
        injection H as _ <-. right. eauto.
    + rewrite (getResponse_parsed d data r Hparse),
        (dispatch_first_match d r t Ht), Hfm in H.
      cbn [run_route] in H. injection H as _ <-. now left.
  - rewrite (getResponse_parsed d data r Hparse) in H.
    unfold dispatch in H. rewrite Ht in H.
    cbn [strict_eq_opt andb call_match] in H. rewrite andb_false_r in H.
    destruct (strict_eq_opt (httpMethod r) HTTP_METHOD.GET);
      cbn [and_then bind] in H; [discriminate H|].
    destruct (strict_eq_opt (httpMethod r) HTTP_METHOD.POST);
      cbn [and_then bind] in H; [discriminate H|].
    injection H as _ <-. now left.
Qed.

Lemma disk_changed_only_by_save_witness :
  let data := bytes "GET /files/f HTTP/1.1" ++ CRLF ++ CRLF in
  let d := [(str "/tmp/f", bytes "hello")] in
  exists r response d',
    parseRequestData data = Normal r
    /\ MemDisk.serve d data = Normal (response, d')
    /\ (d' = d
        \/ (httpMethod r = Some HTTP_METHOD.POST
            /\ exists name, target r = Some (PATH.FILES ++ name)
                  /\ d' = fst (saveFile (node := MemDisk.node) d name (body r)))).
Proof.
  intros data d. do 3 eexists.
  assert (Hparse : parseRequestData data = Normal
            {| httpMethod := Some (str "GET"); target := Some (str "/files/f");
               httpVersion := Some (str "HTTP/1.1"); headers := [];
               body := Some [] |}) by (vm_compute; reflexivity).
  assert (Hserve : MemDisk.serve d data =
            Normal (serialize OK (content_headers CONTENT_TYPE.FILE 5)
                      (str "hello"), d)) by (vm_compute; reflexivity).
  split; [exact Hparse|]. split; [exact Hserve|].
  exact (disk_changed_only_by_save (node := MemDisk.node) d d data _ _
           Hparse Hserve).
Defined.

(** ** Which requests are not answered *)

Lemma Decode_throws_upto (n : nat) (s : JSString) (pending : nat)
    (octets : list N) (e : JSError) :
  (List.length s <= n)%nat ->
  Decode pending octets s = Throw e -> e = URIError.
Proof.
  revert s pending octets.
  induction n as [|n IH]; intros s pending octets Hlen H.
  - destruct s; [|cbn in Hlen; lia]. cbn in H. destruct pending; congruence.
  - destruct s as [|c r]; [cbn in H; destruct pending; congruence|].
    cbn [List.length] in Hlen. cbn [Decode] in H.
    destruct (c =? PERCENT).
    + destruct r as [|h1 [|h2 r2]]; try congruence.
      cbn [List.length] in Hlen.
      destruct (ParseHexOctet h1 h2) as [B|]; [|congruence].
      destruct pending as [|[|p]].
      * destruct (leading_ones B) as [|[|k]]; [| congruence |].
        -- destruct (Decode 0 [] r2) eqn:E; cbn [bind] in H; [discriminate|].
           injection H as <-. apply (IH r2 _ _ ltac:(lia) E).
        -- destruct (Nat.ltb 2 k); [congruence|].
           apply (IH r2 _ _ ltac:(lia) H).
      * destruct (utf8_value (octets ++ [B])); [|congruence].
        destruct (Decode 0 [] r2) eqn:E; cbn [bind] in H; [discriminate|].
        injection H as <-. apply (IH r2 _ _ ltac:(lia) E).
      * apply (IH r2 _ _ ltac:(lia) H).
    + destruct pending; [|congruence].
      destruct (Decode 0 [] r) eqn:E; cbn [bind] in H; [discriminate|].
      injection H as <-. apply (IH r _ _ ltac:(lia) E).
Qed.

Lemma decodeURIComponent_throws (s : JSString) (e : JSError) :
  decodeURIComponent s = Throw e -> e = URIError.
Proof. apply (Decode_throws_upto (List.length s)). lia. Qed.

(** X9. The requests that get no answer. For a parsed request,
    [getResponse] throws in exactly four cases: a GET or POST without
    target (TypeError); a GET on an echo target whose remainder is not a
    percent-encoding (URIError); a GET on the user-agent path without a
    header entry named User-Agent (TypeError); a GET under the files prefix
    when no storage directory was given (TypeError). Every other request
    is answered. *)
Theorem getResponse_throws_iff {node : Node} (d : disk) (data : Buffer)
    (r : HttpRequest) (e : JSError) :
  parseRequestData data = Normal r ->
  getResponse d data = Throw e <->
    (e = TypeError /\ target r = None
     /\ (httpMethod r = Some HTTP_METHOD.GET
         \/ httpMethod r = Some HTTP_METHOD.POST))
    \/ (e = URIError /\ httpMethod r = Some HTTP_METHOD.GET
        /\ exists rest, target r = Some (PATH.ECHO ++ rest)
                        /\ decodeURIComponent rest = Throw URIError)
    \/ (e = TypeError /\ httpMethod r = Some HTTP_METHOD.GET
        /\ target r = Some PATH.USER_AGENT
        /\ find is_user_agent (headers r) = None)
    \/ (e = TypeError /\ httpMethod r = Some HTTP_METHOD.GET
        /\ (exists name, target r = Some (PATH.FILES ++ name))
        /\ directoryPath = None).
Proof.
  intros Hparse. split.
  - intros H. destruct (target r) as [t|] eqn:Ht.
    + destruct (first_match (httpMethod r) t) as [rt|] eqn:Hfm.
      * pose proof (route_matches_shape _ _ _ (first_match_Some _ _ _ Hfm))
          as Hshape.
        destruct rt.
        -- rewrite (getResponse_parsed d data r Hparse),
             (dispatch_first_match d r t Ht), Hfm in H. discriminate H.
        -- destruct Hshape as (Hm & rest & ->).
           rewrite (getResponse_get_echo d data r rest Hparse Hm Ht) in H.
           destruct (decodeURIComponent rest) as [b|e'] eqn:E;
             cbn [bind] in H; [discriminate H|].
           injection H as <-.
           pose proof (decodeURIComponent_throws rest e' E) as ->.
           right; left. eauto 6.
        -- destruct Hshape as (Hm & ->).
           rewrite (getResponse_get_user_agent d data r Hparse Hm Ht) in H.
           destruct (find is_user_agent (headers r)) as [entry|] eqn:E.
           ++ cbn [second_or_default] in H.
              destruct (nth_error entry 1); discriminate H.
           ++ cbn [second_or_default bind] in H. injection H as <-.
              right; right; left. auto.
        -- destruct Hshape as (Hm & name & ->).
           rewrite (getResponse_get_files d data r name Hparse Hm Ht) in H.
           unfold getFile in H.
           destruct directoryPath as [dir|] eqn:E.
           ++ cbn [call_join bind] in H.
              destruct (readFile d (join dir name)); discriminate H.
           ++ cbn [call_join bind] in H. injection H as <-.
              right; right; right. eauto 6.
        -- destruct Hshape as (Hm & name & ->).
           rewrite (getResponse_post_files d data r name Hparse Hm Ht) in H.
           discriminate H.
      * rewrite (getResponse_parsed d data r Hparse),
          (dispatch_first_match d r t Ht), Hfm in H. discriminate H.
    + rewrite (getResponse_parsed d data r Hparse) in H.
      destruct (strict_eq_opt (httpMethod r) HTTP_METHOD.GET) eqn:Hg.
      * apply strict_eq_opt_true in Hg.
        rewrite (dispatch_no_target d r Ht (or_introl Hg)) in H.
        injection H as <-. left. auto.
      * destruct (strict_eq_opt (httpMethod r) HTTP_METHOD.POST) eqn:Hp.
        -- apply strict_eq_opt_true in Hp.
           rewrite (dispatch_no_target d r Ht (or_intror Hp)) in H.
           injection H as <-. left. auto.
        -- apply strict_eq_opt_false in Hg, Hp.
           rewrite (dispatch_other_method d r Hg Hp) in H. discriminate H.
  - intros [(-> & Ht & Hm) | [(-> & Hm & rest & Ht & Hdec)
            | [(-> & Hm & Ht & Hfind) | (-> & Hm & (name & Ht) & Hdir)]]].
    + rewrite (getResponse_parsed d data r Hparse).
      now apply dispatch_no_target.
    + now rewrite (getResponse_get_echo d data r rest Hparse Hm Ht), Hdec.
    + now rewrite (getResponse_get_user_agent d data r Hparse Hm Ht), Hfind.
    + rewrite (getResponse_get_files d data r name Hparse Hm Ht).
      unfold getFile. now rewrite Hdir.
Qed.

Lemma getResponse_throws_iff_witness :
  let data := bytes "POST" in
  let r := {| httpMethod := Some (str "POST"); target := None;
              httpVersion := None; headers := []; body := None |} in
  parseRequestData data = Normal r
  /\ MemDisk.serve [] data = Throw TypeError.
Proof.
  intros data r.
  assert (Hparse : parseRequestData data = Normal r)
    by (vm_compute; reflexivity).
  split; [exact Hparse|].
  apply (proj2 (getResponse_throws_iff (node := MemDisk.node) [] data r
                  TypeError Hparse)).
  left. split; [reflexivity|]. split; [reflexivity|]. right. reflexivity.
Defined.

(** ** Files and framing on the wire *)

Lemma utf8_encode_app (a b : JSString) :
  utf8_encode (a ++ b) = utf8_encode a ++ utf8_encode b.
Proof. apply flat_map_app. Qed.

Lemma utf8_encode_serialize (httpStatus : HTTP_STATUS)
    (hs : list (JSString * HeaderValue)) (body : JSString) :
  utf8_encode (serialize httpStatus hs body)
  = utf8_encode (serialize httpStatus hs []) ++ utf8_encode body.
Proof.
  unfold serialize. rewrite !utf8_encode_app. cbn [utf8_encode flat_map].
  now rewrite app_nil_r, <- !app_assoc.
Qed.

(** X10. A file that is valid UTF-8 is served octet for octet: the octets
    written to the socket are those of the status line and of the two
    headers, Content-Length being the size of the file, followed by the
    octets of the file and nothing else. *)
Theorem text_file_served_verbatim {node : Node} (d : disk) (data : Buffer)
    (r : HttpRequest) (name s : JSString) :
  parseRequestData data = Normal r ->
  httpMethod r = Some HTTP_METHOD.GET ->
  target r = Some (PATH.FILES ++ name) ->
  getFile d name = Normal (Some (utf8_encode s)) ->
  Forall (fun c => is_scalar c = true) s ->
  on_data d data =
    Normal (utf8_encode
              (serialize OK
                 (content_headers CONTENT_TYPE.FILE
                    (byteLength (utf8_encode s))) [])
            ++ utf8_encode s, d).
Proof.
  intros Hparse Hm Ht Hfile Hs. unfold on_data.
  rewrite (getResponse_get_files d data r name Hparse Hm Ht), Hfile.
  cbn [bind fst snd].
  now rewrite (Buffer_toString_utf8_encode s Hs), utf8_encode_serialize.
Qed.

Lemma text_file_served_verbatim_witness :
  let data := bytes "GET /files/f HTTP/1.1" ++ CRLF ++ CRLF in
  let file := [0x61; 0xE2; 0x82; 0xAC] in
  let d := [(str "/tmp/f", file)] in
  utf8_encode [0x61; 0x20AC] = file
  /\ on_data (node := MemDisk.node) d data =
       Normal (bytes "HTTP/1.1 200 OK" ++ CRLF
               ++ bytes "Content-Type: application/octet-stream" ++ CRLF
               ++ bytes "Content-Length: 4" ++ CRLF ++ CRLF ++ file, d).
Proof.
  intros data file d. split; [reflexivity|].
  refine (text_file_served_verbatim (node := MemDisk.node) d data
            {| httpMethod := Some (str "GET"); target := Some (str "/files/f");
               httpVersion := Some (str "HTTP/1.1"); headers := [];
               body := Some [] |}
            (str "f") [0x61; 0x20AC] _ eq_refl eq_refl eq_refl _).
  - vm_compute. reflexivity.
  - repeat constructor.
Defined.



(** ** What an answer depends on *)

(** X12. The answer to a request depends only on its method, its target,
    the first header entry named User-Agent and, for a POST, its body: two
    requests that agree on these are answered alike, whatever their
    versions and their other headers. *)
Theorem answer_depends_only_on {node : Node} (d : disk)
    (data1 data2 : Buffer) (r1 r2 : HttpRequest) :
  parseRequestData data1 = Normal r1 ->
  parseRequestData data2 = Normal r2 ->
  httpMethod r1 = httpMethod r2 ->
  target r1 = target r2 ->
  find is_user_agent (headers r1) = find is_user_agent (headers r2) ->
  (httpMethod r1 = Some HTTP_METHOD.POST -> body r1 = body r2) ->
  getResponse d data1 = getResponse d data2.
Proof.
  intros H1 H2 Hm Ht Hua Hbody.
  rewrite (getResponse_parsed d data1 r1 H1), (getResponse_parsed d data2 r2 H2).
  unfold dispatch, getEchoResponse, getUserAgentResponse, getFilesResponse,
    getSaveFilesResponse, getRootResponse, getNotFoundResponse,
    getInternalServerErrorResponse.
  rewrite <- Hm, <- Ht, <- Hua.
  destruct (strict_eq_opt (httpMethod r1) HTTP_METHOD.POST) eqn:Hp.
  - apply strict_eq_opt_true in Hp. now rewrite <- (Hbody Hp).
  - cbn [and_then bind]. reflexivity.
Qed.

Lemma answer_depends_only_on_witness :
  let data1 := bytes "GET /echo/abc HTTP/1.1" ++ CRLF
               ++ bytes "Host: a" ++ CRLF ++ CRLF ++ bytes "x" in
  let data2 := bytes "GET /echo/abc HTTP/1.0" ++ CRLF
               ++ bytes "Accept: b" ++ CRLF ++ CRLF ++ bytes "y" in
  MemDisk.serve [] data1 = MemDisk.serve [] data2.
Proof.
  intros data1 data2.
  refine (answer_depends_only_on (node := MemDisk.node) [] data1 data2
            {| httpMethod := Some (str "GET"); target := Some (str "/echo/abc");
               httpVersion := Some (str "HTTP/1.1");
               headers := [[str "Host"; str "a"]]; body := Some (str "x") |}
            {| httpMethod := Some (str "GET"); target := Some (str "/echo/abc");
               httpVersion := Some (str "HTTP/1.0");
               headers := [[str "Accept"; str "b"]]; body := Some (str "y") |}
            _ _ eq_refl eq_refl eq_refl _);
    try (vm_compute; reflexivity).
  intros H. vm_compute in H. discriminate H.
Defined.

(** X13. The five routes exclude one another: no request matches two of
    them, so the order in which [getResponse] tries them decides nothing,
    and a request with a target that a route matches is answered by the
    handler of that route. *)
Theorem routes_exclusive {node : Node} (d : disk) (data : Buffer)
    (r : HttpRequest) (t : JSString) (rt : Route) :
  parseRequestData data = Normal r ->
  target r = Some t ->
  route_matches (httpMethod r) t rt = true ->
  (forall rt', route_matches (httpMethod r) t rt' = true -> rt' = rt)
  /\ getResponse d data = run_route (Some rt) d r.
Proof.
  intros Hparse Ht H1.
  assert (Hexcl : forall a b, route_matches (httpMethod r) t a = true ->
                              route_matches (httpMethod r) t b = true -> a = b).
  { intros a b Ha Hb.
    apply route_matches_shape in Ha, Hb.
    destruct a, b; try reflexivity; exfalso;
      repeat match goal with
      | H : _ /\ _ |- _ => destruct H
      | H : exists _, _ |- _ => destruct H
      end;
      repeat match goal with
      | H : httpMethod r = _, H' : httpMethod r = _ |- _ =>
          rewrite H in H'; vm_compute in H'; discriminate H'
      end;
      subst;
      match goal with
      | H : _ = _ :> JSString |- _ => vm_compute in H; discriminate H
      end. }
  split; [intros rt' H'; now apply Hexcl|].
  rewrite (getResponse_parsed d data r Hparse), (dispatch_first_match d r t Ht).
  destruct (first_match (httpMethod r) t) as [rt'|] eqn:Hfm.
  - f_equal. f_equal. apply Hexcl; [|assumption]. now apply first_match_Some.
  - exfalso. unfold first_match in Hfm.
    assert (Hin : In rt route_table) by (destruct rt; cbn; tauto).
    pose proof (find_none _ _ Hfm rt Hin) as Hnone. congruence.
Qed.

Lemma routes_exclusive_witness :
  let data := bytes "GET /files/echo/ HTTP/1.1" ++ CRLF ++ CRLF in
  let r := {| httpMethod := Some (str "GET");
              target := Some (str "/files/echo/");
              httpVersion := Some (str "HTTP/1.1"); headers := [];
              body := Some [] |} in
  parseRequestData data = Normal r
  /\ route_matches (httpMethod r) (str "/files/echo/") FileReadRoute = true
  /\ MemDisk.serve [] data = Normal (serialize NOT_FOUND [] [], []).
Proof.
  intros data r.
  assert (Hparse : parseRequestData data = Normal r)
    by (vm_compute; reflexivity).
  split; [exact Hparse|]. split; [reflexivity|].
  unfold MemDisk.serve.
  rewrite (proj2 (routes_exclusive (node := MemDisk.node) [] data r
                    (str "/files/echo/") FileReadRoute Hparse eq_refl eq_refl)).
  vm_compute. reflexivity.
Defined.

(** X14. Adding the file routes kept every other answer: on a request
    whose target does not start with the files prefix, and on a request
    without target whose method is not POST, the server answers, or
    throws, as the revision without file routes does, and leaves the disk
    alone. *)
Theorem file_routes_keep_other_answers {node : Node} (d : disk)
    (data : Buffer) (r : HttpRequest) :
  parseRequestData data = Normal r ->
  (forall t, target r = Some t -> starts_with PATH.FILES t = false) ->
  (target r = None -> httpMethod r <> Some HTTP_METHOD.POST) ->
  getResponse d data =
    (response <- UserAgentStage.getResponse data ;; Normal (response, d)).
Proof.
  intros Hparse Hfiles Hnone.
  unfold getResponse, UserAgentStage.getResponse. rewrite Hparse.
  cbn [bind]. unfold dispatch.
  destruct (target r) as [t|] eqn:Ht.
  - cbn [call_match strict_eq_opt]. unfold match_prefix.
    rewrite (Hfiles t eq_refl).
    destruct (strict_eq_opt (httpMethod r) HTTP_METHOD.GET);
      destruct (strict_eq_opt (httpMethod r) HTTP_METHOD.POST);
      destruct (strict_eq t PATH.ROOT);
      destruct (starts_with PATH.ECHO t);
      destruct (strict_eq t PATH.USER_AGENT);
      cbn [andb and_then bind];
      try reflexivity;
      try (destruct (getEchoResponse r); reflexivity);
      destruct (getUserAgentResponse r); reflexivity.
  - specialize (Hnone eq_refl). apply strict_eq_opt_false in Hnone.
    rewrite Hnone. cbn [call_match strict_eq_opt].
    rewrite andb_false_r.
    destruct (strict_eq_opt (httpMethod r) HTTP_METHOD.GET);
      cbn [and_then bind]; reflexivity.
Qed.

Lemma file_routes_keep_other_answers_witness :
  let data := bytes "GET /echo/abc HTTP/1.1" ++ CRLF ++ CRLF in
  UserAgentStage.getResponse data =
    Normal (serialize OK (content_headers CONTENT_TYPE.TEXT 3) (str "abc"))
  /\ MemDisk.serve [] data =
       Normal (serialize OK (content_headers CONTENT_TYPE.TEXT 3) (str "abc"), []).
Proof.
  intros data.
  assert (Hold : UserAgentStage.getResponse data =
            Normal (serialize OK (content_headers CONTENT_TYPE.TEXT 3) (str "abc")))
    by (vm_compute; reflexivity).
  split; [exact Hold|].
  unfold MemDisk.serve.
  rewrite (file_routes_keep_other_answers (node := MemDisk.node) [] data
             {| httpMethod := Some (str "GET"); target := Some (str "/echo/abc");
                httpVersion := Some (str "HTTP/1.1"); headers := [];
                body := Some [] |}
             ltac:(vm_compute; reflexivity)
             ltac:(intros t [= <-]; reflexivity)
             ltac:(discriminate)).
  now rewrite Hold.
Defined.

(** ** More on echo and on the status line *)

(** X15. The echo round trip holds beyond ASCII: for every well-formed
    string [s], a GET on the echo prefix followed by the percent-encoding
    of [s] is answered 200 with the body [s] and the number of octets of
    its UTF-8 encoding, not its number of characters, as Content-Length. *)
Theorem echo_roundtrip_unicode {node : Node} (d : disk) (data : Buffer)
    (r : HttpRequest) (s : JSString) :
  parseRequestData data = Normal r ->
  httpMethod r = Some HTTP_METHOD.GET ->
  target r = Some (PATH.ECHO ++ enc s) ->
  Forall (fun c => is_scalar c = true) s ->
  getResponse d data =
    Normal (serialize OK
              (content_headers CONTENT_TYPE.TEXT
                 (N.of_nat (List.length (utf8_encode s)))) s, d).
Proof.
  intros Hparse Hm Ht Hs.
  rewrite (getResponse_get_echo d data r (enc s) Hparse Hm Ht).
  now rewrite (decodeURIComponent_enc s Hs).
Qed.

Lemma echo_roundtrip_unicode_witness :
  let data := bytes "GET /echo/%E2%82%AC5 HTTP/1.1" ++ CRLF ++ CRLF in
  let s := [0x20AC; 53] in
  enc s = str "%E2%82%AC5"
  /\ MemDisk.serve [] data =
       Normal (serialize OK (content_headers CONTENT_TYPE.TEXT 4) s, []).
Proof.
  intros data s. split; [reflexivity|].
  refine (echo_roundtrip_unicode (node := MemDisk.node) [] data
            {| httpMethod := Some (str "GET");
               target := Some (str "/echo/%E2%82%AC5");
               httpVersion := Some (str "HTTP/1.1"); headers := [];
               body := Some [] |} s _ eq_refl eq_refl _).
  - vm_compute. reflexivity.
  - repeat constructor.
Defined.

Lemma Decode_literal (s : JSString) :
  ~ In PERCENT s -> Decode O [] s = Normal s.
Proof.
  induction s as [|c s IH]; intros Hin; [reflexivity|].
  cbn [Decode].
  rewrite (proj2 (N.eqb_neq c PERCENT))
    by (intros ->; apply Hin; now left).
  rewrite IH; [reflexivity|]. intros H. apply Hin. now right.
Qed.

(** X16. An echo target without percent sign is echoed as it is: the body
    is the target less the echo prefix, which is removed once, at the
    start only. *)
Theorem echo_literal {node : Node} (d : disk) (data : Buffer)
    (r : HttpRequest) (rest : JSString) :
  parseRequestData data = Normal r ->
  httpMethod r = Some HTTP_METHOD.GET ->
  target r = Some (PATH.ECHO ++ rest) ->
  ~ In PERCENT rest ->
  getResponse d data =
    Normal (serialize OK
              (content_headers CONTENT_TYPE.TEXT (Buffer_byteLength rest))
              rest, d).
Proof.
  intros Hparse Hm Ht Hrest.
  rewrite (getResponse_get_echo d data r rest Hparse Hm Ht).
  unfold decodeURIComponent. now rewrite (Decode_literal rest Hrest).
Qed.

Lemma echo_literal_witness :
  let data := bytes "GET /echo//echo/a+b HTTP/1.1" ++ CRLF ++ CRLF in
  ~ In PERCENT (str "/echo/a+b")
  /\ MemDisk.serve [] data =
       Normal (serialize OK (content_headers CONTENT_TYPE.TEXT 9)
                 (str "/echo/a+b"), []).
Proof.
  intros data.
  assert (Hrest : ~ In PERCENT (str "/echo/a+b")).
  { intros H. vm_compute in H.
    repeat (destruct H as [H|H]; [discriminate H|]). exact H. }
  split; [exact Hrest|].
  refine (echo_literal (node := MemDisk.node) [] data
            {| httpMethod := Some (str "GET");
               target := Some (str "/echo//echo/a+b");
               httpVersion := Some (str "HTTP/1.1"); headers := [];
               body := Some [] |} (str "/echo/a+b") _ eq_refl eq_refl Hrest).
  vm_compute. reflexivity.
Defined.


(** ** Bodies as octets *)

Lemma Buffer_toString_utf8_encode_app (s : JSString) (rest : Buffer) :
  Forall (fun c => is_scalar c = true) s ->
  Buffer_toString (utf8_encode s ++ rest) = s ++ Buffer_toString rest.
Proof.
  induction 1 as [|c s Hc _ IH]; [reflexivity|].
  unfold utf8_encode in *. cbn [flat_map]. rewrite <- app_assoc.
  rewrite Buffer_toString_encode_cp by assumption. cbn [app]. now rewrite IH.
Qed.

Lemma request_text_body (m t v : JSString) (hs : list (JSString * JSString))
    (body : JSString) :
  request_text m t v hs body = request_text m t v hs [] ++ body.
Proof. unfold request_text. now rewrite app_nil_r, <- !app_assoc. Qed.

(** The parser on a well-formed head followed by any text: the body is the
    text up to its first blank line. *)
Lemma parse_request_text_any (data : Buffer) (m t v : JSString)
    (hs : list (JSString * JSString)) (after : JSString) :
  Buffer_toString data = request_text m t v hs after ->
  Forall word_char m -> Forall word_char t -> Forall word_char v ->
  Forall header_ok hs ->
  parseRequestData data =
    Normal {| httpMethod := Some m; target := Some t; httpVersion := Some v;
              headers := map header_entry hs;
              body := Some (fst (split_once (CRLF ++ CRLF) after)) |}.
Proof.
  intros Htext Hm Ht Hv Hhs.
  set (startLine := m ++ 32 :: t ++ 32 :: v).
  assert (Hstart : ~ In CR startLine).
  { apply line_char_no_CR. subst startLine.
    apply Forall_app; split; [now apply word_char_line|].
    constructor; [split; [reflexivity | discriminate]|].
    apply Forall_app; split; [now apply word_char_line|].
    constructor; [split; [reflexivity | discriminate]|].
    now apply word_char_line. }
  assert (Hlines : Forall (fun l => l <> [] /\ ~ In CR l) (map header_line hs)).
  { apply Forall_map. eapply Forall_impl; [|exact Hhs].
    intros h Hh. destruct (header_line_ok h Hh) as [Hne Hl].
    split; [assumption | now apply line_char_no_CR]. }
  assert (Hmap : map (fun h => CRLF ++ header_line h) hs
                 = map (fun l => CRLF ++ l) (map header_line hs))
    by now rewrite map_map.
  assert (Hparts : exists more,
            split (CRLF ++ CRLF) (request_text m t v hs after)
            = (startLine ++ concat (map (fun l => CRLF ++ l) (map header_line hs)))
              :: fst (split_once (CRLF ++ CRLF) after) :: more).
  { unfold request_text. fold startLine. rewrite Hmap.
    rewrite (split_once_spec (CRLF ++ CRLF)) by discriminate.
    rewrite split_once_blank_line by assumption.
    rewrite (split_once_spec (CRLF ++ CRLF)) by discriminate.
    destruct (split_once (CRLF ++ CRLF) after) as [b [a|]]; cbn [fst]; eauto. }
  destruct Hparts as [more Hparts].
  unfold parseRequestData. rewrite Htext, Hparts.
  cbn [nth_error call_split bind].
  rewrite split_lines by assumption.
  cbn [nth_error call_split bind tl].
  subst startLine.
  rewrite split_tokens by now apply word_char_no_space.
  cbn [nth_error]. rewrite map_map.
  do 2 f_equal. apply map_ext_in. intros h Hin.
  apply split_header. rewrite Forall_forall in Hhs. now apply Hhs.
Qed.

(** An ASCII separator that occurs in a text occurs in its octets. *)
Lemma starts_with_utf8_encode (sep s : JSString) :
  Forall (fun c => c < 0x80) sep ->
  starts_with sep s = true -> starts_with sep (utf8_encode s) = true.
Proof.
  intros Hsep. revert s. induction Hsep as [|a sep Ha _ IH]; intros s H.
  - now destruct (utf8_encode s).
  - destruct s as [|b s]; [discriminate H|].
    cbn [starts_with] in H. apply andb_true_iff in H as [Hab H].
    apply N.eqb_eq in Hab. subst b.
    unfold utf8_encode. cbn [flat_map]. unfold utf8_encode_cp at 1.
    rewrite (proj2 (N.ltb_lt _ _) Ha). cbn [app starts_with].
    rewrite N.eqb_refl. now apply IH.
Qed.

Lemma starts_with_occurs (sep s : JSString) :
  starts_with sep s = true -> occurs sep s = true.
Proof. destruct s; cbn [occurs]; intros H; now rewrite H. Qed.

Lemma occurs_app_r (sep a b : JSString) :
  occurs sep b = true -> occurs sep (a ++ b) = true.
Proof.
  intros H. induction a as [|c a IH]; [exact H|].
  cbn [app occurs]. rewrite IH. apply orb_true_r.
Qed.

Lemma occurs_utf8_encode (sep s : JSString) :
  Forall (fun c => c < 0x80) sep ->
  occurs sep (utf8_encode s) = false -> occurs sep s = false.
Proof.
  intros Hsep Hoct.
  destruct (occurs sep s) eqn:Htext; [|reflexivity].
  rewrite <- Hoct. symmetry. clear Hoct.
  induction s as [|c s IH].
  - exact Htext.
  - cbn [occurs] in Htext. apply orb_true_iff in Htext as [Hhere|Hlater].
    + apply starts_with_occurs. now apply starts_with_utf8_encode.
    + unfold utf8_encode. cbn [flat_map]. apply occurs_app_r. now apply IH.
Qed.

Lemma const_word_chars (l : JSString) :
  forallb (fun c => is_scalar c && negb (c =? CR) && negb (c =? 32)) l = true ->
  Forall word_char l.
Proof.
  intros H. rewrite forallb_forall in H. apply Forall_forall.
  intros c Hc. specialize (H c Hc).
  apply andb_true_iff in H as [H H32]. apply andb_true_iff in H as [Hs HCR].
  apply negb_true_iff, N.eqb_neq in H32, HCR. repeat split; assumption.
Qed.

Lemma const_line_chars (l : JSString) :
  forallb (fun c => is_scalar c && negb (c =? CR)) l = true ->
  Forall line_char l.
Proof.
  intros H. rewrite forallb_forall in H. apply Forall_forall.
  intros c Hc. specialize (H c Hc). apply andb_true_iff in H as [Hs HCR].
  apply negb_true_iff, N.eqb_neq in HCR. split; assumption.
Qed.

(** ** Files: the octets posted are the octets served *)

Lemma files_target_word (f : JSString) :
  Forall word_char f -> Forall word_char (PATH.FILES ++ f).
Proof.
  intros Hf. apply Forall_app; split; [|exact Hf].
  now apply const_word_chars.
Qed.

(** A request of the wire protocol followed by any octets is parsed as its
    head says. *)
Lemma parse_request_octets (m t v : JSString)
    (hs : list (JSString * JSString)) (B : Buffer) :
  Forall word_char m -> Forall word_char t -> Forall word_char v ->
  Forall header_ok hs ->
  parseRequestData (utf8_encode (request_text m t v hs []) ++ B) =
    Normal {| httpMethod := Some m; target := Some t; httpVersion := Some v;
              headers := map header_entry hs;
              body := Some (fst (split_once (CRLF ++ CRLF)
                                   (Buffer_toString B))) |}.
Proof.
  intros Hm Ht Hv Hhs.
  apply parse_request_text_any; try assumption.
  rewrite Buffer_toString_utf8_encode_app
    by (apply request_text_scalar; auto).
  symmetry. apply request_text_body.
Qed.

Section FileRoundTripOnTheWire.

Context {node : Node}.

Hypothesis read_after_write :
  forall d path content d',
    writeFile d path content = (d', true) -> readFile d' path = Some content.

(** C5, as the code has it. Let [B] be octets that are valid UTF-8, the
    encoding of a text [s], and hold no CR LF CR LF, and let [f] be a file
    name that can stand in a start line. If a POST on the files prefix
    and [f] with the body [B] is answered 201 Created, then a GET on the
    same target is answered, on the wire, with the status line 200, the
    headers Content-Type application/octet-stream and Content-Length the
    number of octets of [B], a blank line, and exactly the octets [B]. *)
Theorem file_roundtrip (d d' : disk) (f v v' : JSString)
    (hs hs' : list (JSString * JSString)) (s : JSString) (B' : Buffer) :
  Forall word_char f ->
  Forall word_char v -> Forall header_ok hs ->
  Forall word_char v' -> Forall header_ok hs' ->
  Forall (fun c => is_scalar c = true) s ->
  occurs (CRLF ++ CRLF) (utf8_encode s) = false ->
  on_data d
    (utf8_encode (request_text HTTP_METHOD.POST (PATH.FILES ++ f) v hs [])
     ++ utf8_encode s)
  = Normal (utf8_encode (serialize CREATED [] []), d') ->
  on_data d'
    (utf8_encode (request_text HTTP_METHOD.GET (PATH.FILES ++ f) v' hs' [])
     ++ B')
  = Normal (utf8_encode
              (serialize OK
                 (content_headers CONTENT_TYPE.FILE
                    (byteLength (utf8_encode s))) [])
            ++ utf8_encode s, d').
Proof.
  intros Hf Hv Hhs Hv' Hhs' Hs Hblank Hcreated.
  pose proof (files_target_word f Hf) as Ht.
  assert (Hpost := parse_request_octets HTTP_METHOD.POST (PATH.FILES ++ f) v hs
                     (utf8_encode s) ltac:(now apply const_word_chars)
                     Ht Hv Hhs).
  rewrite (Buffer_toString_utf8_encode s Hs) in Hpost.
  rewrite (occurs_false_split_once (CRLF ++ CRLF) s) in Hpost
    by (apply occurs_utf8_encode; [repeat constructor | exact Hblank]).
  cbn [fst] in Hpost.
  assert (Hsave : saveFile d f (Some s) = (d', true)).
  { unfold on_data in Hcreated.
    rewrite (getResponse_post_files d _ _ f Hpost eq_refl eq_refl) in Hcreated.
    cbn [body bind fst snd] in Hcreated.
    destruct (saveFile d f (Some s)) as [d1 [|]]; cbn [fst snd] in Hcreated.
    - now injection Hcreated as ->.
    - exfalso. injection Hcreated as H _. vm_compute in H. discriminate H. }
  pose proof (getFile_after_saveFile read_after_write d d' f s Hsave) as Hfile.
  assert (Hget := parse_request_octets HTTP_METHOD.GET (PATH.FILES ++ f) v' hs'
                    B' ltac:(now apply const_word_chars) Ht Hv' Hhs').
  unfold on_data.
  rewrite (getResponse_get_files d' _ _ f Hget eq_refl eq_refl), Hfile.
  cbn [bind fst snd].
  rewrite (Buffer_toString_utf8_encode s Hs).
  unfold serialize. rewrite !app_nil_r.
  rewrite !app_assoc. unfold utf8_encode. now rewrite flat_map_app.
Qed.

End FileRoundTripOnTheWire.

Lemma file_roundtrip_witness :
  let s := str "hello" in
  let hs := [(str "Content-Type", str "application/octet-stream")] in
  let d' := [(str "/tmp/f", bytes "hello")] in
  Forall word_char (str "f") /\ Forall word_char (str "HTTP/1.1")
  /\ Forall header_ok hs
  /\ Forall (fun c => is_scalar c = true) s
  /\ occurs (CRLF ++ CRLF) (utf8_encode s) = false
  /\ on_data (node := MemDisk.node) []
       (bytes "POST /files/f HTTP/1.1" ++ CRLF
        ++ bytes "Content-Type: application/octet-stream" ++ CRLF ++ CRLF
        ++ bytes "hello")
     = Normal (bytes "HTTP/1.1 201 Created" ++ CRLF ++ CRLF, d')
  /\ on_data (node := MemDisk.node) d'
       (bytes "GET /files/f HTTP/1.1" ++ CRLF ++ CRLF)
     = Normal (bytes "HTTP/1.1 200 OK" ++ CRLF
               ++ bytes "Content-Type: application/octet-stream" ++ CRLF
               ++ bytes "Content-Length: 5" ++ CRLF ++ CRLF
               ++ bytes "hello", d').
Proof.
  intros s hs d'.
  assert (Hf : Forall word_char (str "f"))
    by (apply const_word_chars; reflexivity).
  assert (Hv : Forall word_char (str "HTTP/1.1"))
    by (apply const_word_chars; reflexivity).
  assert (Hhs : Forall header_ok hs).
  { repeat constructor; try (apply const_line_chars; reflexivity);
      cbn; intuition discriminate. }
  assert (Hs : Forall (fun c => is_scalar c = true) s) by (repeat constructor).
  assert (Hblank : occurs (CRLF ++ CRLF) (utf8_encode s) = false) by reflexivity.
  assert (Hcreated :
    on_data (node := MemDisk.node) []
      (utf8_encode (request_text HTTP_METHOD.POST (PATH.FILES ++ str "f")
                      (str "HTTP/1.1") hs []) ++ utf8_encode s)
    = Normal (utf8_encode (serialize CREATED [] []), d'))
    by (vm_compute; reflexivity).
  split; [exact Hf|]. split; [exact Hv|]. split; [exact Hhs|].
  split; [exact Hs|]. split; [exact Hblank|]. split; [exact Hcreated|].
  exact (file_roundtrip (node := MemDisk.node) MemDisk_read_after_write
           [] d' (str "f") (str "HTTP/1.1") (str "HTTP/1.1") hs [] s []
           Hf Hv Hhs Hv (Forall_nil _) Hs Hblank Hcreated).
Defined.

(** C5 as stated fails. A body of the single octet FF, which is not UTF-8,
    is stored and served as the three octets of U+FFFD, with Content-Length
    3. A body a, CR LF CR LF, b is stored and served as the single octet
    a, with Content-Length 1. *)
Lemma posted_body_not_preserved :
  let get := bytes "GET /files/f HTTP/1.1" ++ CRLF ++ CRLF in
  (let B := [0xFF] in
   let post := bytes "POST /files/f HTTP/1.1" ++ CRLF ++ CRLF ++ B in
   let d' := [(str "/tmp/f", [0xEF; 0xBF; 0xBD])] in
   on_data (node := MemDisk.node) [] post
     = Normal (bytes "HTTP/1.1 201 Created" ++ CRLF ++ CRLF, d')
   /\ on_data (node := MemDisk.node) d' get
      = Normal (bytes "HTTP/1.1 200 OK" ++ CRLF
                ++ bytes "Content-Type: application/octet-stream" ++ CRLF
                ++ bytes "Content-Length: 3" ++ CRLF ++ CRLF
                ++ [0xEF; 0xBF; 0xBD], d')
   /\ [0xEF; 0xBF; 0xBD] <> B
   /\ byteLength B = 1)
  /\ (let B := bytes "a" ++ CRLF ++ CRLF ++ bytes "b" in
      let post := bytes "POST /files/f HTTP/1.1" ++ CRLF ++ CRLF ++ B in
      let d' := [(str "/tmp/f", bytes "a")] in
      on_data (node := MemDisk.node) [] post
        = Normal (bytes "HTTP/1.1 201 Created" ++ CRLF ++ CRLF, d')
      /\ on_data (node := MemDisk.node) d' get
         = Normal (bytes "HTTP/1.1 200 OK" ++ CRLF
                   ++ bytes "Content-Type: application/octet-stream" ++ CRLF
                   ++ bytes "Content-Length: 1" ++ CRLF ++ CRLF
                   ++ bytes "a", d')
      /\ bytes "a" <> B
      /\ byteLength B = 6).
Proof.
  split.
  - split; [vm_compute; reflexivity|]. split; [vm_compute; reflexivity|].
    split; [discriminate | reflexivity].
  - split; [vm_compute; reflexivity|]. split; [vm_compute; reflexivity|].
    split; [discriminate | reflexivity].
Qed.

(** ** Serialization of text and of files *)





(** ** User-agent on the wire, status on the wire *)

(** X4. User-agent pass-through on the wire: a GET for the user-agent path
    sent as UTF-8 with well-formed headers, the first of them named
    User-Agent having the value [X], is answered 200 with the body [X] and
    its number of octets as Content-Length, whatever the other headers,
    the version and the octets that follow the blank line. *)
Theorem user_agent_pass_through {node : Node} (d : disk) (v : JSString)
    (pre post : list (JSString * JSString)) (X : JSString) (B : Buffer) :
  Forall word_char v ->
  Forall header_ok (pre ++ (HEADER.USER_AGENT, X) :: post) ->
  Forall (fun h => fst h <> HEADER.USER_AGENT) pre ->
  getResponse d
    (utf8_encode (request_text HTTP_METHOD.GET PATH.USER_AGENT v
                    (pre ++ (HEADER.USER_AGENT, X) :: post) [])
     ++ B)
  = Normal (serialize OK
              (content_headers CONTENT_TYPE.TEXT (Buffer_byteLength X)) X, d).
Proof.
  intros Hv Hhs Hpre.
  assert (Hparse := parse_request_octets HTTP_METHOD.GET PATH.USER_AGENT v
                      (pre ++ (HEADER.USER_AGENT, X) :: post) B
                      ltac:(now apply const_word_chars)
                      ltac:(now apply const_word_chars) Hv Hhs).
  rewrite (getResponse_get_user_agent d _ _ Hparse eq_refl eq_refl).
  cbn [headers]. rewrite map_app. cbn [map].
  rewrite (find_user_agent_first (map header_entry pre)
             (header_entry (HEADER.USER_AGENT, X)) (map header_entry post)).
  - reflexivity.
  - intros h Hin. apply in_map_iff in Hin as (h0 & <- & Hin0).
    rewrite Forall_forall in Hpre. specialize (Hpre h0 Hin0).
    unfold header_entry. cbn [nth_error]. congruence.
  - reflexivity.
Qed.

Lemma user_agent_pass_through_witness :
  let pre := [(str "Host", str "localhost:4221")] in
  let post := [(str "Accept", str "*/*"); (str "User-Agent", str "other")] in
  let X := str "curl/8.0" in
  Forall word_char (str "HTTP/1.0")
  /\ Forall header_ok (pre ++ (HEADER.USER_AGENT, X) :: post)
  /\ Forall (fun h => fst h <> HEADER.USER_AGENT) pre
  /\ MemDisk.serve []
       (bytes "GET /user-agent HTTP/1.0" ++ CRLF
        ++ bytes "Host: localhost:4221" ++ CRLF
        ++ bytes "User-Agent: curl/8.0" ++ CRLF
        ++ bytes "Accept: */*" ++ CRLF
        ++ bytes "User-Agent: other" ++ CRLF ++ CRLF
        ++ bytes "x" ++ CRLF ++ CRLF ++ [0xFF])
     = Normal (serialize OK (content_headers CONTENT_TYPE.TEXT 8) X, []).
Proof.
  intros pre post X.
  assert (Hv : Forall word_char (str "HTTP/1.0"))
    by (apply const_word_chars; reflexivity).
  assert (Hhs : Forall header_ok (pre ++ (HEADER.USER_AGENT, X) :: post)).
  { repeat constructor; try (apply const_line_chars; reflexivity);
      cbn; intuition discriminate. }
  assert (Hpre : Forall (fun h => fst h <> HEADER.USER_AGENT) pre)
    by (repeat constructor; discriminate).
  split; [exact Hv|]. split; [exact Hhs|]. split; [exact Hpre|].
  exact (user_agent_pass_through (node := MemDisk.node) [] (str "HTTP/1.0")
           pre post X (bytes "x" ++ CRLF ++ CRLF ++ [0xFF]) Hv Hhs Hpre).
Defined.

(** X17. The status can be read off a response: two responses
    [generateResponse] writes that are equal were written for the same
    status, whatever their headers and bodies, so that responses written
    for different statuses always differ. *)
Theorem status_readable (st1 st2 : HTTP_STATUS)
    (hs1 hs2 : option (list (JSString * HeaderValue)))
    (b1 b2 : option BodyValue) :
  (generateResponse st1 hs1 b1 = generateResponse st2 hs2 b2 -> st1 = st2)
  /\ (st1 <> st2 ->
      generateResponse st1 hs1 b1 <> generateResponse st2 hs2 b2).
Proof.
  assert (Hread : generateResponse st1 hs1 b1 = generateResponse st2 hs2 b2 ->
                  st1 = st2).
  { rewrite !generateResponse_serialize. unfold serialize.
    destruct st1, st2; try reflexivity; intros H; exfalso;
      vm_compute in H; discriminate H. }
  split; [exact Hread|]. intros Hne H. now apply Hne, Hread.
Qed.

Lemma status_readable_witness :
  let hs1 := Some [(str "A", HString (str "b" ++ CRLF ++ str "C: d"))] in
  let hs2 := Some [(str "A", HString (str "b")); (str "C", HString (str "d"))] in
  let b1 := Some (BBuffer [0xFF]) in
  let b2 := Some (BString [REPLACEMENT]) in
  generateResponse OK hs1 b1 = generateResponse OK hs2 b2
  /\ OK = OK
  /\ OK <> NOT_FOUND
  /\ generateResponse OK hs1 b1 <> generateResponse NOT_FOUND hs2 b2.
Proof.
  intros hs1 hs2 b1 b2.
  assert (Heq : generateResponse OK hs1 b1 = generateResponse OK hs2 b2)
    by (vm_compute; reflexivity).
  assert (Hne : OK <> NOT_FOUND) by discriminate.
  split; [exact Heq|].
  split; [exact (proj1 (status_readable OK OK hs1 hs2 b1 b2) Heq)|].
  split; [exact Hne|].
  exact (proj2 (status_readable OK NOT_FOUND hs1 hs2 b1 b2) Hne).
Defined.
